(** * Request gating and user CRUD of the NestJS starter backend

    A shallow embedding of the backend's decision logic:
    - [RawBodyMiddleware.use]   (common/middleware/raw-body.middleware.ts)
    - [AuthGuard.canActivate]   (modules/auth/guards/auth.guard.ts)
    - [UsersService]            (modules/users/services/users.service.ts)
    - the route table declared by the controllers' decorators
    over a model of the relational store described by prisma/schema.prisma.

    Promises ([async]/[await]) are run to completion one request at a time,
    so asynchronous code is embedded in a state-and-exception monad over the
    store.  The clock ([now()], [@updatedAt]) is an explicit argument. *)

From stdpp Require Import gmap strings list sorting.
From Stdlib Require Import ZArith Ascii.

Local Open Scope Z_scope.

(** ** Values that can be thrown *)

(** What a rejected promise can carry in this code base: a framework
    [HttpException] (status, message), a known request error of the ORM
    client (with its error code), the ORM client failing to reach the
    database, or an error raised inside the authentication library. *)
Inductive Thrown : Type :=
| HttpException (status : Z) (message : string)
| PrismaClientKnownRequestError (code : string)
| PrismaClientInitializationError
| ProviderError (message : string).

#[global] Instance Thrown_eq_dec : EqDecision Thrown.
Proof. solve_decision. Defined.

Definition UnauthorizedException (message : string) : Thrown :=
  HttpException 401 message.
Definition ForbiddenException (message : string) : Thrown :=
  HttpException 403 message.
Definition NotFoundException (message : string) : Thrown :=
  HttpException 404 message.
Definition ConflictException (message : string) : Thrown :=
  HttpException 409 message.

(** ** Persisted schema (prisma/schema.prisma) *)

(** [DateTime] columns are milliseconds since the epoch. *)
Definition DateTime : Type := Z.

Module User.
Record t : Type := mk {
  id : string;
  name : option string;
  email : string;
  emailVerified : bool;
  createdAt : DateTime;
  updatedAt : DateTime;
  isActive : bool;
  image : option string
}.
End User.

Module Session.
Record t : Type := mk {
  id : string;
  expiresAt : DateTime;
  token : string;
  userId : string;
  createdAt : DateTime;
  updatedAt : DateTime;
  ipAddress : option string;
  userAgent : option string
}.
End Session.

Module Account.
Record t : Type := mk {
  id : string;
  userId : string;
  password : option string;
  accountId : string;
  providerId : string;
  accessToken : option string;
  refreshToken : option string;
  idToken : option string;
  accessTokenExpiresAt : option DateTime;
  refreshTokenExpiresAt : option DateTime;
  scope : option string;
  createdAt : DateTime;
  updatedAt : DateTime
}.
End Account.

#[global] Instance User_eq_dec : EqDecision User.t.
Proof. solve_decision. Defined.
#[global] Instance Session_eq_dec : EqDecision Session.t.
Proof. solve_decision. Defined.
#[global] Instance Account_eq_dec : EqDecision Account.t.
Proof. solve_decision. Defined.

(** The tables this code base reads or writes, keyed by primary key.  The
    [Verification] and [RateLimit] tables belong to the authentication
    library alone and are not touched by any embedded function. *)
Record DB : Type := mkDB {
  users : gmap string User.t;
  sessions : gmap string Session.t;
  accounts : gmap string Account.t
}.

(** The singleton database client of lib/prisma.ts either reaches the
    database or does not. *)
Inductive Store : Type :=
| Reachable (db : DB)
| Unreachable.

(** ** The monad of asynchronous store code *)

Definition M (A : Type) : Type := Store → (Thrown + A) * Store.

Definition ret {A} (a : A) : M A := λ s, (inr a, s).

Definition throw {A} (e : Thrown) : M A := λ s, (inl e, s).

Definition bind {A B} (c : M A) (k : A → M B) : M B :=
  λ s, match c s with
       | (inl e, s') => (inl e, s')
       | (inr a, s') => k a s'
       end.

(** [try { c } catch (error) { h error }] *)
Definition try_catch {A} (c : M A) (h : Thrown → M A) : M A :=
  λ s, match c s with
       | (inl e, s') => h e s'
       | (inr a, s') => (inr a, s')
       end.

(** Awaiting a call that does not go through the store. *)
Definition await {A} (r : Thrown + A) : M A := λ s, (r, s).

Notation "'let*' x := c 'in' k" := (bind c (λ x, k))
  (at level 10, x binder, c at level 100, k at level 200, only parsing).

(** ** The ORM client on the [User] model *)

Module Prisma.

(** Error codes of the client's known request errors. *)
Definition P2002 : string := "P2002". (* unique constraint failed *)
Definition P2025 : string := "P2025". (* record to update/delete not found *)

Definition connect {A} (op : DB → (Thrown + A) * DB) : M A :=
  λ s, match s with
       | Reachable db => let '(r, db') := op db in (r, Reachable db')
       | Unreachable => (inl PrismaClientInitializationError, Unreachable)
       end.

Definition rows (db : DB) : list User.t := (map_to_list (users db)).*2.

(** The row carrying a given value of the [@unique] column [email]. *)
Definition by_email (e : string) (db : DB) : option User.t :=
  head (filter (λ u, User.email u = e) (rows db)).

(** A row other than [self] that already carries [e]. *)
Definition email_taken_by_other (self e : string) (db : DB) : bool :=
  bool_decide (Exists (λ u, User.email u = e ∧ User.id u ≠ self) (rows db)).

Inductive UserWhereUniqueInput : Type :=
| where_id (id : string)
| where_email (email : string).

(** [data] of [user.create], restricted to the columns a
    [CreateUserDto] can carry. *)
Record UserCreateInput : Type := mkCreate {
  c_name : option string;
  c_email : string;
  c_emailVerified : option bool;
  c_isActive : option bool
}.

(** [data] of [user.update]: an absent ([undefined]) field leaves the
    column alone. *)
Record UserUpdateInput : Type := mkUpdate {
  u_name : option string;
  u_email : option string;
  u_emailVerified : option bool;
  u_isActive : option bool
}.

Inductive SortOrder : Type := asc | desc.

(** [@default(cuid())]: an id no row of the table carries. *)
Definition cuid (db : DB) : string := fresh (dom (users db)).

Definition user_create (data : UserCreateInput) (now : DateTime) : M User.t :=
  connect (λ db,
    match by_email (c_email data) db with
    | Some _ => (inl (PrismaClientKnownRequestError P2002), db)
    | None =>
        let row :=
          {| User.id := cuid db;
             User.name := c_name data;
             User.email := c_email data;
             User.emailVerified := default false (c_emailVerified data);
             User.createdAt := now;
             User.updatedAt := now;
             User.isActive := default true (c_isActive data);
             User.image := None |} in
        (inr row,
         {| users := <[User.id row := row]> (users db);
            sessions := sessions db;
            accounts := accounts db |})
    end).

Definition user_findUnique (w : UserWhereUniqueInput) : M (option User.t) :=
  connect (λ db,
    (inr match w with
         | where_id i => users db !! i
         | where_email e => by_email e db
         end, db)).

(** [orderBy: { createdAt: ... }] *)
Definition createdAt_order (o : SortOrder) (a b : User.t) : Prop :=
  match o with
  | asc => User.createdAt a ≤ User.createdAt b
  | desc => User.createdAt b ≤ User.createdAt a
  end.

#[global] Instance createdAt_order_dec o a b : Decision (createdAt_order o a b).
Proof. destruct o; simpl; apply _. Defined.

(** [where: { isActive: ... }]; no filter when absent. *)
Definition isActive_is (w : option bool) (u : User.t) : Prop :=
  match w with
  | Some b => User.isActive u = b
  | None => True
  end.

#[global] Instance isActive_is_dec w u : Decision (isActive_is w u).
Proof. destruct w; simpl; apply _. Defined.

Definition user_findMany (where_isActive : option bool)
    (orderBy_createdAt : option SortOrder) : M (list User.t) :=
  connect (λ db,
    let hits := filter (isActive_is where_isActive) (rows db) in
    (inr match orderBy_createdAt with
         | Some o => merge_sort (createdAt_order o) hits
         | None => hits
         end, db)).

(** A [data] object none of whose fields is set. *)
Definition empty_update (data : UserUpdateInput) : bool :=
  match u_name data, u_email data, u_emailVerified data, u_isActive data with
  | None, None, None, None => true
  | _, _, _, _ => false
  end.

(** The row after an update.  [@updatedAt] takes the time of the call
    when the update sets a column; an update that sets none writes
    nothing. *)
Definition apply_update (data : UserUpdateInput) (now : DateTime)
    (row : User.t) : User.t :=
  {| User.id := User.id row;
     User.name := match u_name data with
                  | Some n => Some n
                  | None => User.name row
                  end;
     User.email := default (User.email row) (u_email data);
     User.emailVerified :=
       default (User.emailVerified row) (u_emailVerified data);
     User.createdAt := User.createdAt row;
     User.updatedAt := if empty_update data then User.updatedAt row else now;
     User.isActive := default (User.isActive row) (u_isActive data);
     User.image := User.image row |}.

Definition user_update (id : string) (data : UserUpdateInput)
    (now : DateTime) : M User.t :=
  connect (λ db,
    match users db !! id with
    | None => (inl (PrismaClientKnownRequestError P2025), db)
    | Some row =>
        if match u_email data with
           | Some e => email_taken_by_other id e db
           | None => false
           end
        then (inl (PrismaClientKnownRequestError P2002), db)
        else
          let row' := apply_update data now row in
          (inr row',
           {| users := <[id := row']> (users db);
              sessions := sessions db;
              accounts := accounts db |})
    end).

(** [onDelete: Cascade] on [Session.user] and [Account.user]. *)
Definition user_delete (id : string) : M User.t :=
  connect (λ db,
    match users db !! id with
    | None => (inl (PrismaClientKnownRequestError P2025), db)
    | Some row =>
        (inr row,
         {| users := delete id (users db);
            sessions := filter (λ kv, Session.userId kv.2 ≠ id) (sessions db);
            accounts := filter (λ kv, Account.userId kv.2 ≠ id) (accounts db) |})
    end).

End Prisma.

(** ** DTOs of the users module *)

(** dto/create-user.dto.ts *)
Module CreateUserDto.
Record t : Type := mk {
  name : option string;
  email : string;
  emailVerified : option bool;
  isActive : option bool
}.
End CreateUserDto.

(** Modelled from the spec: dto/update-user.dto.ts is not among the
    sources; the spec gives [update] the input "id, partial fields", so the
    DTO carries each field of [CreateUserDto] optionally. *)
Module UpdateUserDto.
Record t : Type := mk {
  name : option string;
  email : option string;
  emailVerified : option bool;
  isActive : option bool
}.
End UpdateUserDto.

(** ** UsersService (modules/users/services/users.service.ts) *)

Module UsersService.
Import Prisma.

(** [{ ...createUserDto }] *)
Definition spread (dto : CreateUserDto.t) : UserCreateInput :=
  {| c_name := CreateUserDto.name dto;
     c_email := CreateUserDto.email dto;
     c_emailVerified := CreateUserDto.emailVerified dto;
     c_isActive := CreateUserDto.isActive dto |}.

(** A later [emailVerified: v] in the same object literal. *)
Definition set_emailVerified (v : bool) (o : UserCreateInput) : UserCreateInput :=
  {| c_name := c_name o;
     c_email := c_email o;
     c_emailVerified := Some v;
     c_isActive := c_isActive o |}.

(** A later [isActive: v] in the same object literal. *)
Definition set_isActive (v : bool) (o : UserCreateInput) : UserCreateInput :=
  {| c_name := c_name o;
     c_email := c_email o;
     c_emailVerified := c_emailVerified o;
     c_isActive := Some v |}.

Definition create (createUserDto : CreateUserDto.t) (now : DateTime) : M User.t :=
  user_create
    (set_isActive true (set_emailVerified false (spread createUserDto))) now.

Definition findAll : M (list User.t) :=
  user_findMany (Some true) (Some desc).

Definition findOne (id : string) : M (option User.t) :=
  user_findUnique (where_id id).

Definition findByEmail (email : string) : M (option User.t) :=
  user_findUnique (where_email email).

(** [data: updateUserDto] *)
Definition update_data (dto : UpdateUserDto.t) : UserUpdateInput :=
  {| u_name := UpdateUserDto.name dto;
     u_email := UpdateUserDto.email dto;
     u_emailVerified := UpdateUserDto.emailVerified dto;
     u_isActive := UpdateUserDto.isActive dto |}.

Definition update (id : string) (updateUserDto : UpdateUserDto.t)
    (now : DateTime) : M User.t :=
  user_update id (update_data updateUserDto) now.

(** [data: { isActive: false }] *)
Definition deactivate : UserUpdateInput :=
  {| u_name := None; u_email := None; u_emailVerified := None;
     u_isActive := Some false |}.

Definition remove (id : string) (now : DateTime) : M unit :=
  let* _ := user_update id deactivate now in ret tt.

Definition hardDelete (id : string) : M unit :=
  let* _ := user_delete id in ret tt.

End UsersService.

(** ** How a thrown value reaches the caller *)

(** main.ts registers pipes and CORS but no exception filter, so the
    framework's built-in exception layer answers: an [HttpException] with
    its own status, anything else with status 500. *)
Definition response_status (e : Thrown) : Z :=
  match e with
  | HttpException status _ => status
  | _ => 500
  end.

(** The failure kinds of the error taxonomy, by response status. *)
Inductive FailureKind : Type :=
| AuthenticationFailure
| NotFound
| Conflict
| ValidationFailure
| UnexpectedStoreFailure.

Definition failure_kind (e : Thrown) : FailureKind :=
  let status := response_status e in
  if status =? 401 then AuthenticationFailure
  else if status =? 404 then NotFound
  else if status =? 409 then Conflict
  else if status =? 400 then ValidationFailure
  else UnexpectedStoreFailure.

(** ** Requests *)

Inductive Method : Type := GET | POST | PUT | PATCH | DELETE | HEAD | OPTIONS.

#[global] Instance Method_eq_dec : EqDecision Method.
Proof. solve_decision. Defined.

Definition Headers : Type := list (string * string).

(** A parsed request body. *)
#[warnings="-register-all"]
Inductive Json : Type :=
| JNull
| JBool (b : bool)
| JNumber (n : Z)
| JString (s : string)
| JArray (items : list Json)
| JObject (fields : list (string * Json)).

(** The user object the authentication library hands back with a session. *)
Module AuthUser.
Record t : Type := mk {
  id : string;
  name : option string;
  email : string;
  emailVerified : bool;
  image : option string;
  createdAt : DateTime;
  updatedAt : DateTime
}.
End AuthUser.

(** The request object, with the two properties the guard attaches. *)
Record Request : Type := mkRequest {
  method : Method;
  baseUrl : option string;
  url : option string;
  headers : Headers;
  rawBody : string;
  body : option Json;
  user : option AuthUser.t;
  session : option Session.t
}.

(** ** The authentication library (lib/auth.ts), as an opaque capability *)

(** What [auth.api.getSession] resolves to when it is not [null]. *)
Record SessionResult : Type := mkSessionResult {
  result_session : option Session.t;
  result_user : option AuthUser.t
}.

Record AuthProvider : Type := mkAuthProvider {
  api_getSession : Headers → Thrown + option SessionResult
}.

(** ** AuthGuard (modules/auth/guards/auth.guard.ts) *)

Module AuthGuard.
Import Prisma.

(** [session?.session] *)
Definition session_of (session : option SessionResult) : option Session.t :=
  match session with
  | Some r => result_session r
  | None => None
  end.

(** [session.user] *)
Definition user_of (session : option SessionResult) : option AuthUser.t :=
  match session with
  | Some r => result_user r
  | None => None
  end.

(** [request.user = ...; request.session = ...] *)
Definition attach (request : Request) (u : option AuthUser.t)
    (s : Session.t) : Request :=
  {| method := method request;
     baseUrl := baseUrl request;
     url := url request;
     headers := headers request;
     rawBody := rawBody request;
     body := body request;
     user := u;
     session := Some s |}.

(** [!user || !user.isActive] *)
Definition missing_or_inactive (user : option User.t) : bool :=
  match user with
  | None => true
  | Some u => negb (User.isActive u)
  end.

(** The body of the [try] block. *)
Definition attempt (auth : AuthProvider) (request : Request) : M (bool * Request) :=
  let* session := await (api_getSession auth (headers request)) in
  match session_of session with
  | None => throw (UnauthorizedException "Invalid or expired session")
  | Some s =>
      let* user := user_findUnique (where_id (Session.userId s)) in
      if missing_or_inactive user
      then throw (UnauthorizedException "User not found or inactive")
      else ret (true, attach request (user_of session) s)
  end.

Definition canActivate (auth : AuthProvider) (request : Request) : M (bool * Request) :=
  try_catch (attempt auth request)
    (λ error, throw (UnauthorizedException "Authentication failed")).

End AuthGuard.

(** ** The route table (controllers' decorators, global prefix of main.ts)

    This is the router of the controllers.  What main.ts mounts in front
    of it, the CORS handler and the documentation pages, is in
    [Bootstrap] below.  The value bound to [:id] is not part of the
    model. *)

Module Router.

(** Route verbs: the mapping decorators used by the controllers. *)
Inductive Verb : Type := Get | Post | Patch | Delete | All.

Inductive Segment : Type :=
| lit (s : string)      (* a literal path segment *)
| param (name : string) (* [:name] *)
| wildcard.             (* ['*'] *)

Inductive Guard : Type := AuthGuard.

Inductive Handler : Type :=
| AppController_getHello
| AppController_getHealth
| UsersController_create
| UsersController_findAll
| UsersController_getCurrentUser
| UsersController_findOne
| UsersController_update
| UsersController_remove
| AuthController_handleAuth.

#[global] Instance Handler_eq_dec : EqDecision Handler.
Proof. solve_decision. Defined.

Record Route : Type := mkRoute {
  verb : Verb;
  path : list Segment;
  guards : list Guard;    (* [@UseGuards(...)] *)
  handler : Handler
}.

(** app.controller.ts: [@Controller()] *)
Definition AppController : list Route :=
  [ mkRoute Get [] [] AppController_getHello;
    mkRoute Get [lit "health"] [] AppController_getHealth ].

(** users.controller.ts: [@Controller('users')], in declaration order *)
Definition UsersController : list Route :=
  [ mkRoute Post [lit "users"] [] UsersController_create;
    mkRoute Get [lit "users"] [AuthGuard] UsersController_findAll;
    mkRoute Get [lit "users"; lit "me"] [AuthGuard] UsersController_getCurrentUser;
    mkRoute Get [lit "users"; param "id"] [AuthGuard] UsersController_findOne;
    mkRoute Patch [lit "users"; param "id"] [AuthGuard] UsersController_update;
    mkRoute Delete [lit "users"; param "id"] [AuthGuard] UsersController_remove ].

(** auth.controller.ts: [@Controller('auth')], [@All('*')] *)
Definition AuthController : list Route :=
  [ mkRoute All [lit "auth"; wildcard] [] AuthController_handleAuth ].

(** [app.setGlobalPrefix('api')] *)
Definition globalPrefix : string := "api".

Definition routes : list Route :=
  (λ r, mkRoute (verb r) (lit globalPrefix :: path r) (guards r) (handler r))
    <$> (AppController ++ UsersController ++ AuthController).

(** The target of a request, cut at the query string and split at every
    ["/"]; empty segments are kept. *)
Fixpoint split_path (s cur : string) : list string :=
  match s with
  | EmptyString => [cur]
  | String c rest =>
      if decide (c = "?"%char) then [cur]
      else if decide (c = "/"%char) then cur :: split_path rest ""
      else split_path rest (cur +:+ String c "")
  end.

(** The segments after the leading slash; a target that does not begin
    with a slash has no path. *)
Definition request_path (req : Request) : option (list string) :=
  match split_path (default "" (baseUrl req) +:+ default "" (url req)) "" with
  | EmptyString :: seg :: segs => Some (seg :: segs)
  | _ => None
  end.

(** Paths are matched without regard to the case of ASCII letters. *)
Definition lower (c : ascii) : ascii :=
  let n := nat_of_ascii c in
  if ((65 <=? n) && (n <=? 90))%nat then ascii_of_nat (n + 32) else c.

Fixpoint lowercase (s : string) : string :=
  match s with
  | EmptyString => EmptyString
  | String c rest => String (lower c) (lowercase rest)
  end.

Definition same_text (a b : string) : bool :=
  bool_decide (lowercase a = lowercase b).

(** The methods a route registered under a verb answers: [All] answers
    every method, and a [Get] route also answers [HEAD]. *)
Definition verb_matches (v : Verb) (m : Method) : bool :=
  match v, m with
  | All, _ => true
  | Get, GET => true
  | Get, HEAD => true
  | Post, POST => true
  | Patch, PATCH => true
  | Delete, DELETE => true
  | _, _ => false
  end.

(** A pattern against the segments of a path, as they came: a literal
    matches the same text in any letter case, [:name] a non-empty
    segment, ['*'] whatever follows a slash; one slash at the end of the
    path is ignored. *)
Fixpoint path_matches (pat : list Segment) (p : list string) : bool :=
  match pat, p with
  | [], [] => true
  | [], [x] => bool_decide (x = "")
  | wildcard :: _, _ :: _ => true
  | lit s :: pat', x :: p' => same_text s x && path_matches pat' p'
  | param _ :: pat', x :: p' => negb (bool_decide (x = "")) && path_matches pat' p'
  | _, _ => false
  end.

(** The texts a matching pattern captures: the segments under [:name]
    and what ['*'] took. *)
Fixpoint captures (pat : list Segment) (p : list string) : list string :=
  match pat, p with
  | wildcard :: _, _ => [String.concat "/" p]
  | lit _ :: pat', _ :: p' => captures pat' p'
  | param _ :: pat', x :: p' => x :: captures pat' p'
  | _, _ => []
  end.

#[global] Instance Verb_eq_dec : EqDecision Verb.
Proof. solve_decision. Defined.
#[global] Instance Segment_eq_dec : EqDecision Segment.
Proof. solve_decision. Defined.

(** The route a controller declares for a verb and a path, the path
    written as in the decorators, without the global prefix. *)
Definition declared (v : Verb) (p : list Segment) : option Route :=
  head (filter (λ r, verb r = v ∧ path r = p)
               (AppController ++ UsersController ++ AuthController)).

Definition run_guard (g : Guard) (auth : AuthProvider) (req : Request) : M (bool * Request) :=
  match g with
  | AuthGuard => AuthGuard.canActivate auth req
  end.

(** Guards run in order; one that resolves to [false] is answered with
    the framework's forbidden response, one that throws with what it
    threw. *)
Fixpoint run_guards (gs : list Guard) (auth : AuthProvider) (req : Request) : M Request :=
  match gs with
  | [] => ret req
  | g :: gs' =>
      let* r := run_guard g auth req in
      if r.1 then run_guards gs' auth r.2
      else throw (ForbiddenException "Forbidden resource")
  end.

Section pipeline.
(** The built-in [decodeURIComponent], which fails on a malformed escape
    sequence: captured texts are decoded before a route is taken. *)
Variable decodeURIComponent : string → option string.

(** The global [ValidationPipe] of main.ts (whitelist, forbidNonWhitelisted,
    transform), applied to the arguments of a handler after the guards:
    the exception it throws on arguments it refuses, if it refuses them. *)
Variable ValidationPipe : Handler → Request → option Thrown.

(** The first captured text, if any, that is not empty and does not
    decode. *)
Definition undecodable (texts : list string) : option string :=
  List.find (λ x, negb (bool_decide (x = ""))
                  && negb (bool_decide (is_Some (decodeURIComponent x))))
            texts.

(** The routes are tried in the order of their declaration.  A route
    whose path matches has its captured texts decoded, whatever its verb:
    a text that does not decode ends the search with a bad-request
    failure.  The first route whose path and verb match is taken. *)
Fixpoint first_match (rs : list Route) (m : Method) (p : list string) :
    Thrown + option Route :=
  match rs with
  | [] => inr None
  | r :: rs' =>
      if path_matches (path r) p then
        match undecodable (captures (path r) p) with
        | Some x =>
            inl (HttpException 400 ("Failed to decode param '" +:+ x +:+ "'"))
        | None =>
            if verb_matches (verb r) m then inr (Some r)
            else first_match rs' m p
        end
      else first_match rs' m p
  end.

Definition dispatch (req : Request) : Thrown + option Route :=
  match request_path req with
  | Some p => first_match routes (method req) p
  | None => inr None
  end.

(** A request that reached a route goes through the route's guards and
    then through the validation pipe; only then is the handler invoked,
    with the request as the guards left it. *)
Definition execute (r : Route) (auth : AuthProvider) (req : Request) : M (Handler * Request) :=
  let* req' := run_guards (guards r) auth req in
  match ValidationPipe (handler r) req' with
  | Some e => throw e
  | None => ret (handler r, req')
  end.

Definition handle (auth : AuthProvider) (req : Request) : M (Handler * Request) :=
  match dispatch req with
  | inl e => throw e
  | inr (Some r) => execute r auth req
  | inr None => throw (NotFoundException "Not Found")
  end.
End pipeline.

End Router.

(** ** RawBodyMiddleware (common/middleware/raw-body.middleware.ts) *)

Module RawBodyMiddleware.

(** Instrumentation: which body parsers were invoked, with which
    options. *)
Inductive ParserCall : Type :=
| express_json_call (limit : Z)
| express_urlencoded_call (extended : bool) (limit : Z).

#[global] Instance ParserCall_eq_dec : EqDecision ParserCall.
Proof. solve_decision. Defined.

(** What [use] hands to [next]: the error argument, if any, and the
    request object as it then is. *)
Record Passed : Type := mkPassed {
  calls : list ParserCall;
  err : option Thrown;
  request : Request
}.

(** ['5mb'] in bytes *)
Definition limit_5mb : Z := 5 * 1024 * 1024.

(** [x?.startsWith(prefix)], falsy when [x] is absent *)
Definition startsWith (x : option string) (prefix : string) : bool :=
  match x with
  | Some s => String.prefix prefix s
  | None => false
  end.

Definition is_auth_route (req : Request) : bool :=
  startsWith (baseUrl req) "/api/auth" || startsWith (url req) "/api/auth".

Section use.
(** The two body parsers of the web framework.  Called with its options
    on a request, a parser works on the request object in place and then
    calls back, with an error or without one: the result is the error,
    if any, and the request object as the parser left it. *)
Variable express_json : Z → Request → option Thrown * Request.
Variable express_urlencoded : bool → Z → Request → option Thrown * Request.

Definition use (req : Request) : Passed :=
  if is_auth_route req then
    {| calls := []; err := None; request := req |}
  else
    match express_json limit_5mb req with
    | (Some e, req1) =>
        {| calls := [express_json_call limit_5mb];
           err := Some e; request := req1 |}
    | (None, req1) =>
        let cs := [express_json_call limit_5mb;
                   express_urlencoded_call true limit_5mb] in
        match express_urlencoded true limit_5mb req1 with
        | (e, req2) => {| calls := cs; err := e; request := req2 |}
        end
    end.
End use.

End RawBodyMiddleware.

(** ** A small seeded store: one active and one inactive user *)

Module Fixtures.

Definition U1 : User.t :=
  User.mk "u1" (Some "Ann") "a@x.com" true 100 100 true None.
Definition U2 : User.t :=
  User.mk "u2" None "b@x.com" false 200 200 false None.
Definition U3 : User.t :=
  User.mk "u3" (Some "Cy") "c@x.com" false 300 300 true None.

Definition session_for (sid uid : string) : Session.t :=
  Session.mk sid 99999 ("token-" +:+ sid) uid 250 250 None None.

Definition S1 : Session.t := session_for "s1" "u1".
Definition S2 : Session.t := session_for "s2" "u2".
Definition S9 : Session.t := session_for "s9" "u9".

Definition A1 : Account.t :=
  Account.mk "a1" "u1" (Some "hash") "u1" "credential"
    None None None None None None 100 100.

Definition seeded : DB :=
  {| users := <["u3" := U3]> (<["u2" := U2]> (<["u1" := U1]> ∅));
     sessions := <["s2" := S2]> (<["s1" := S1]> ∅);
     accounts := <["a1" := A1]> ∅ |}.

Definition request_to (m : Method) (target : string) : Request :=
  mkRequest m (Some "") (Some target) [("cookie", "session_token=t")] ""
    None None None.

Definition AU1 : AuthUser.t :=
  AuthUser.mk "u1" (Some "Ann") "a@x.com" true None 100 100.

Definition AU2 : AuthUser.t :=
  AuthUser.mk "u2" None "b@x.com" false None 200 200.

(** Stand-in for [decodeURIComponent]: exact on text without escape
    sequences, which is all the targets of this section carry. *)
Definition unescaped (text : string) : option string := Some text.

(** The validation pipe on handlers that take no body and no DTO, which
    are the only ones the requests of this section reach: nothing to
    refuse. *)
Definition no_arguments (h : Router.Handler) (req : Request) : option Thrown :=
  None.

(** A provider that resolves every request to the given result. *)
Definition resolving (r : option SessionResult) : AuthProvider :=
  mkAuthProvider (λ _, inr r).

Definition with_body (req : Request) (b : Json) : Request :=
  {| method := method req; baseUrl := baseUrl req; url := url req;
     headers := headers req; rawBody := rawBody req; body := Some b;
     user := user req; session := session req |}.

Definition header (name : string) (req : Request) : option string :=
  snd <$> List.find (λ kv, bool_decide (kv.1 = name)) (headers req).

(** Stand-ins for the framework's two body parsers, for the requests of
    this section.  Each first gives the request an empty body object if
    it has none.  The JSON one then leaves a request of another content
    type alone, refuses a body over the cap, reads the empty object and
    refuses any other text; the URL-encoded one leaves a request of
    another content type alone and reads the empty form. *)
Definition with_default_body (req : Request) : Request :=
  match body req with
  | Some _ => req
  | None => with_body req (JObject [])
  end.

Definition json_parser (limit : Z) (req : Request) : option Thrown * Request :=
  let req0 := with_default_body req in
  if negb (bool_decide (header "content-type" req = Some "application/json"))
  then (None, req0)
  else if limit <? Z.of_nat (String.length (rawBody req))
  then (Some (HttpException 413 "request entity too large"), req0)
  else if decide (rawBody req = "{}") then (None, with_body req (JObject []))
  else (Some (HttpException 400 "Unexpected token in JSON"), req0).

Definition urlencoded_parser (extended : bool) (limit : Z) (req : Request) :
    option Thrown * Request :=
  (None, with_default_body req).

Definition posting_json (target raw : string) : Request :=
  mkRequest POST (Some "") (Some target)
    [("content-type", "application/json")] raw None None None.

Definition posting (target raw : string) : Request :=
  mkRequest POST (Some "") (Some target) [] raw None None None.

(** A provider whose resolver throws. *)
Definition failing : AuthProvider :=
  mkAuthProvider (λ _, inl (ProviderError "session lookup failed")).

End Fixtures.

(** ** AuthService (modules/auth/services/auth.service.ts) *)

Module AuthService.
Import Prisma.

(** A user row together with the relations [include] asks for. *)
Record UserWithRelations : Type := mkUserWithRelations {
  profile : User.t;
  profile_sessions : list Session.t;
  profile_accounts : list Account.t
}.

(** [user.findUnique({ where: { id }, include: { sessions: true,
    accounts: true } })] *)
Definition user_findUnique_include (id : string) : M (option UserWithRelations) :=
  connect (λ db,
    (inr ((λ u,
            {| profile := u;
               profile_sessions :=
                 (map_to_list
                    (filter (λ kv, Session.userId kv.2 = id) (sessions db))).*2;
               profile_accounts :=
                 (map_to_list
                    (filter (λ kv, Account.userId kv.2 = id) (accounts db))).*2 |})
          <$> users db !! id), db)).

(** [`User ${user.email} has been registered`] *)
Definition registered_line (user : User.t) : string :=
  "User " +:+ User.email user +:+ " has been registered".

(** The lines [console.log] prints are returned beside the result: one
    line [if (user)], none otherwise. *)
Definition onUserRegistered (userId : string)
    : M (list string * option User.t) :=
  let* user := user_findUnique (where_id userId) in
  ret (match user with
       | Some u => [registered_line u]
       | None => []
       end, user).

Definition getUserProfile (userId : string) : M (option UserWithRelations) :=
  user_findUnique_include userId.

(** [data: { isActive }] *)
Definition status_data (isActive : bool) : UserUpdateInput :=
  {| u_name := None; u_email := None; u_emailVerified := None;
     u_isActive := Some isActive |}.

Definition updateUserStatus (userId : string) (isActive : bool)
    (now : DateTime) : M User.t :=
  user_update userId (status_data isActive) now.

End AuthService.

(** ** UsersController.getCurrentUser (modules/users/controllers) *)

Module UsersController.

Record CurrentUser : Type := mkCurrentUser {
  message : string;
  current_user : option AuthUser.t   (* [user: req.user] *)
}.

(** The user object is the one the guard attached. *)
Definition getCurrentUser (req : Request) : CurrentUser :=
  {| message := "Authenticated user profile"; current_user := user req |}.

End UsersController.

(** ** Configuration factory (config/configuration.ts) *)

Module Configuration.

(** What [parseInt] can return: [NaN], an infinity, or an integer. *)
Inductive JsNumber : Type :=
| NaN
| Infinity (negative : bool)
| Num (z : Z).

(** Truthiness of a number: [NaN] and zero are falsy. *)
Definition truthy (n : JsNumber) : bool :=
  match n with
  | NaN => false
  | Infinity _ => true
  | Num z => negb (z =? 0)
  end.

(** [n || d] on numbers *)
Definition number_or (n : JsNumber) (d : Z) : JsNumber :=
  if truthy n then n else Num d.

(** [x || d] on an environment variable: absent and empty are falsy. *)
Definition string_or (x : option string) (d : string) : string :=
  match x with
  | Some s => if decide (s = "") then d else s
  | None => d
  end.

Record Config : Type := mkConfig {
  port : JsNumber;
  database_url : option string;
  jwt_secret : string;
  jwt_expiresIn : string;
  cors_enabled : bool;
  cors_origin : string;
  swagger_enabled : bool;
  swagger_title : string;
  swagger_description : string;
  swagger_version : string;
  swagger_path : string;
  throttle_ttl : JsNumber;
  throttle_limit : JsNumber
}.

Section configuration.
(** The built-in [parseInt(string, radix)], applied to a variable that
    may be absent. *)
Variable parseInt : option string → Z → JsNumber.

Definition configuration (env : gmap string string) : Config :=
  {| port := number_or (parseInt (env !! "PORT") 10) 3000;
     database_url := env !! "DATABASE_URL";
     jwt_secret := string_or (env !! "JWT_SECRET") "super-secret-jwt-key";
     jwt_expiresIn := string_or (env !! "JWT_EXPIRES_IN") "24h";
     cors_enabled := bool_decide (env !! "CORS_ENABLED" = Some "true") || true;
     cors_origin := string_or (env !! "CORS_ORIGIN") "*";
     swagger_enabled := negb (bool_decide (env !! "SWAGGER_ENABLED" = Some "false"));
     swagger_title := string_or (env !! "SWAGGER_TITLE") "Starter Template API";
     swagger_description :=
       string_or (env !! "SWAGGER_DESCRIPTION")
         "API documentation for Starter Template backend services";
     swagger_version := string_or (env !! "SWAGGER_VERSION") "1.0";
     swagger_path := string_or (env !! "SWAGGER_PATH") "api";
     throttle_ttl := number_or (parseInt (env !! "THROTTLE_TTL") 10) 60000;
     throttle_limit := number_or (parseInt (env !! "THROTTLE_LIMIT") 10) 10 |}.
End configuration.

End Configuration.

(** ** What main.ts mounts in front of the controllers *)

Module Bootstrap.


Section front.
(** The requests the documentation module answers itself once it is set
    up under a path. *)
Variable SwaggerModule_serves : string → Request → bool.

End front.

End Bootstrap.

(** ** Session-gated layouts of the frontend (components/layout) *)

Module Frontend.

(** The session object of the client library. *)
Record ClientSession : Type := mkClientSession {
  session_user : option AuthUser.t
}.

(** [const { data: session, isPending } = useSession()] *)
Record SessionHook : Type := mkSessionHook {
  data : option ClientSession;
  isPending : bool
}.

(** What a layout returns. *)
Inductive Rendered : Type :=
| Spinner   (* the loading indicator *)
| Nothing   (* [null] *)
| Children. (* the wrapped page *)

(** auth-layout.tsx: the effect's [router.push], if it fires. *)
Definition AuthLayout_effect (h : SessionHook) : option string :=
  if negb (isPending h) && bool_decide (is_Some (data h))
  then Some "/dashboard" else None.

Definition AuthLayout (h : SessionHook) : Rendered :=
  if isPending h then Spinner
  else if bool_decide (is_Some (data h)) then Nothing
  else Children.

(** dashboard-layout.tsx *)
Definition DashboardLayout_effect (h : SessionHook) : option string :=
  if negb (isPending h) && negb (bool_decide (is_Some (data h)))
  then Some "/login" else None.

Definition DashboardLayout (h : SessionHook) : Rendered :=
  if isPending h then Spinner
  else if negb (bool_decide (is_Some (data h))) then Nothing
  else Children.

End Frontend.

(** ** Integrity of the store *)

(** Every user row is filed under its own id. *)
Definition keys_consistent (db : DB) : Prop :=
  ∀ i u, users db !! i = Some u → User.id u = i.

(** The [@unique] constraint on [email]. *)
Definition emails_unique (db : DB) : Prop :=
  ∀ i j u v, users db !! i = Some u → users db !! j = Some v →
             User.email u = User.email v → i = j.

(** Both together: what the lookups by id and by email rely on. *)
Definition unique_keyed (db : DB) : Prop :=
  keys_consistent db ∧ emails_unique db.

(** The foreign keys of [Session] and [Account]. *)
Definition references_intact (db : DB) : Prop :=
  (∀ k s, sessions db !! k = Some s → is_Some (users db !! Session.userId s))
  ∧ (∀ k a, accounts db !! k = Some a → is_Some (users db !! Account.userId a)).

Definition consistent (db : DB) : Prop :=
  keys_consistent db ∧ emails_unique db ∧ references_intact db.

(** A store operation that, started on a reachable store satisfying [P],
    leaves a reachable store satisfying [P], whether it returns or
    throws. *)
Definition preserves {A} (P : DB → Prop) (c : M A) : Prop :=
  ∀ db, P db → ∃ db', (c (Reachable db)).2 = Reachable db' ∧ P db'.

(** ** Vocabulary of the properties *)

(** The failure kind under which a call that threw reaches the caller. *)
Definition thrown_kind {A} (r : (Thrown + A) * Store) : option FailureKind :=
  match r.1 with
  | inl e => Some (failure_kind e)
  | inr _ => None
  end.

(** The session resolves, and the store holds an active row for its user. *)
Definition valid_session (auth : AuthProvider) (req : Request) (st : Store)
    (r : SessionResult) (s : Session.t) : Prop :=
  api_getSession auth (headers req) = inr (Some r)
  ∧ result_session r = Some s
  ∧ ∃ db u, st = Reachable db
            ∧ users db !! Session.userId s = Some u
            ∧ User.isActive u = true.

Definition authentication_failed : Thrown :=
  UnauthorizedException "Authentication failed".

(** The handler of the route a request was dispatched to. *)
Definition handler_of (d : Thrown + option Router.Route) :
    Thrown + option Router.Handler :=
  match d with
  | inl e => inl e
  | inr r => inr (Router.handler <$> r)
  end.

(** The provider's contract: a result carries both a session and a
    user; otherwise there is no result. *)
Definition honours_contract (auth : AuthProvider) : Prop :=
  ∀ h r, api_getSession auth h = inr (Some r) →
         is_Some (result_session r) ∧ is_Some (result_user r).

(** A route gated by the guard: a request gets past its guards only with
    a valid session, and a request without one is answered with the
    authentication failure, whatever the validation pipe would say. *)
Definition requires_session (r : Router.Route) : Prop :=
  ∀ (auth : AuthProvider) (req : Request) (st : Store),
    (∀ req', (Router.run_guards (Router.guards r) auth req st).1 = inr req' →
             ∃ sr s, valid_session auth req st sr s)
    ∧ ((∀ sr s, ¬ valid_session auth req st sr s) →
       ∀ pipe, Router.execute pipe r auth req st
               = (inl (UnauthorizedException "Authentication failed"), st)).

(** A route that is not gated: every request gets past its guards
    unchanged, whatever the provider says and whether or not the store
    can be reached. *)
Definition not_gated (r : Router.Route) : Prop :=
  ∀ (auth : AuthProvider) (req : Request) (st : Store),
    Router.run_guards (Router.guards r) auth req st = (inr req, st).

(** * Properties *)

(** ** Facts about the store *)

Section store_facts.
Import Prisma.

Lemma elem_of_rows (db : DB) (u : User.t) :
  u ∈ rows db ↔ ∃ i, users db !! i = Some u.
Proof.
  unfold rows. rewrite list_elem_of_fmap. split.
  - intros [[i v] [-> Hin]]. exists i. by apply elem_of_map_to_list.
  - intros [i Hi]. exists (i, u). split; [done|].
    by apply elem_of_map_to_list.
Qed.

Lemma by_email_None (e : string) (db : DB) :
  by_email e db = None ↔
  map_Forall (λ _ u, User.email u ≠ e) (users db).
Proof.
  unfold by_email. rewrite head_None. split.
  - intros Hnil i u Hi Heq.
    eapply (filter_nil_not_elem_of _ _ u Hnil); [done|].
    apply elem_of_rows; eauto.
  - intros Hall.
    destruct (filter _ (rows db)) as [|u l] eqn:Hf; [done|].
    assert (Hu : u ∈ filter (λ u, User.email u = e) (rows db))
      by (rewrite Hf; left).
    apply list_elem_of_filter in Hu as [Heq Hin].
    apply elem_of_rows in Hin as [i Hi].
    by destruct (Hall i u Hi).
Qed.

Lemma by_email_Some (e : string) (db : DB) :
  is_Some (by_email e db) ↔
  ∃ i u, users db !! i = Some u ∧ User.email u = e.
Proof.
  rewrite <- not_eq_None_Some, by_email_None. split.
  - intros Hn. destruct (by_email e db) as [u|] eqn:Hb.
    + apply head_Some_elem_of in Hb.
      apply list_elem_of_filter in Hb as [Heq Hin].
      apply elem_of_rows in Hin as [i Hi]. eauto.
    + apply by_email_None in Hb. done.
  - intros (i & u & Hi & Heq) Hall. by apply (Hall i u Hi).
Qed.

Lemma cuid_fresh (db : DB) : users db !! cuid db = None.
Proof. apply not_elem_of_dom. unfold cuid. apply is_fresh. Qed.

#[global] Instance createdAt_order_trans o : Transitive (createdAt_order o).
Proof. intros a b c. destruct o; simpl; lia. Qed.

#[global] Instance createdAt_order_total o : Total (createdAt_order o).
Proof. intros a b. destruct o; simpl; lia. Qed.

End store_facts.

(** ** UsersService *)

(** C7. On every state of the user table [findAll] succeeds, leaves the
    store as it is, and returns exactly the rows with [isActive = true]
    (each once), ordered newest first by [createdAt]; no inactive row is
    in the result. *)
Theorem findAll_active_newest_first (db : DB) :
  ∃ l : list User.t,
    UsersService.findAll (Reachable db) = (inr l, Reachable db)
    ∧ l ≡ₚ filter (λ u, User.isActive u = true) (map_to_list (users db)).*2
    ∧ (∀ u, u ∈ l ↔ (∃ i, users db !! i = Some u) ∧ User.isActive u = true)
    ∧ Forall (λ u, User.isActive u ≠ false) l
    ∧ StronglySorted (λ a b, User.createdAt b ≤ User.createdAt a) l.
Proof.
  eexists. split; [reflexivity|].
  assert (Hperm : merge_sort (Prisma.createdAt_order Prisma.desc)
            (filter (Prisma.isActive_is (Some true)) (Prisma.rows db))
          ≡ₚ filter (λ u, User.isActive u = true) (map_to_list (users db)).*2).
  { rewrite merge_sort_Permutation. done. }
  assert (Hmem : ∀ u,
    u ∈ merge_sort (Prisma.createdAt_order Prisma.desc)
          (filter (Prisma.isActive_is (Some true)) (Prisma.rows db))
    ↔ (∃ i, users db !! i = Some u) ∧ User.isActive u = true).
  { intros u. rewrite merge_sort_Permutation, list_elem_of_filter.
    rewrite elem_of_rows. simpl. tauto. }
  split; [exact Hperm|]. split; [exact Hmem|]. split.
  - apply Forall_forall. intros u Hu. apply Hmem in Hu as [_ ->]. done.
  - apply (StronglySorted_merge_sort (Prisma.createdAt_order Prisma.desc)).
Qed.

(** C9. Creating a user whose email no row carries succeeds, and the new
    row has [emailVerified = false] and [isActive = true] whatever the DTO
    supplied for those two fields; the row is stored under a new id and no
    other row changes. *)
Theorem create_overrides_flags (db : DB) (dto : CreateUserDto.t) (now : DateTime) :
  map_Forall (λ _ u, User.email u ≠ CreateUserDto.email dto) (users db) →
  ∃ (u : User.t) (db' : DB),
    UsersService.create dto now (Reachable db) = (inr u, Reachable db')
    ∧ User.emailVerified u = false
    ∧ User.isActive u = true
    ∧ User.email u = CreateUserDto.email dto
    ∧ User.name u = CreateUserDto.name dto
    ∧ users db !! User.id u = None
    ∧ users db' !! User.id u = Some u
    ∧ (∀ j, j ≠ User.id u → users db' !! j = users db !! j).
Proof.
  intros Hfresh. apply by_email_None in Hfresh.
  unfold UsersService.create, Prisma.user_create, Prisma.connect.
  simpl. rewrite Hfresh. eexists _, _. split; [reflexivity|]. simpl.
  repeat split.
  - apply cuid_fresh.
  - apply lookup_insert_eq.
  - intros j Hj. by apply lookup_insert_ne.
Qed.

(** A DTO that asks for [emailVerified = true] and [isActive = false] is
    accepted and overridden. *)
Lemma create_overrides_flags_witness :
  ∃ (u : User.t) (db' : DB),
    UsersService.create
      (CreateUserDto.mk (Some "Dee") "d@x.com" (Some true) (Some false)) 400
      (Reachable Fixtures.seeded) = (inr u, Reachable db')
    ∧ User.emailVerified u = false
    ∧ User.isActive u = true
    ∧ User.email u = "d@x.com"
    ∧ User.name u = Some "Dee"
    ∧ users Fixtures.seeded !! User.id u = None
    ∧ users db' !! User.id u = Some u
    ∧ (∀ j, j ≠ User.id u → users db' !! j = users Fixtures.seeded !! j).
Proof.
  apply (create_overrides_flags Fixtures.seeded
           (CreateUserDto.mk (Some "Dee") "d@x.com" (Some true) (Some false)) 400).
  apply by_email_None. vm_compute. reflexivity.
Defined.

(** What [user.update] does on a row that exists. *)
Lemma user_update_existing (db : DB) (id : string)
    (data : Prisma.UserUpdateInput) (now : DateTime) (row : User.t) :
  users db !! id = Some row →
  Prisma.user_update id data now (Reachable db) =
    (inl (PrismaClientKnownRequestError Prisma.P2002), Reachable db)
  ∨ Prisma.user_update id data now (Reachable db) =
      (inr (Prisma.apply_update data now row),
       Reachable {| users := <[id := Prisma.apply_update data now row]> (users db);
                    sessions := sessions db;
                    accounts := accounts db |}).
Proof.
  intros Hrow. unfold Prisma.user_update, Prisma.connect. rewrite Hrow.
  destruct (match Prisma.u_email data with
            | Some e => Prisma.email_taken_by_other id e db
            | None => false
            end); [left | right]; reflexivity.
Qed.

Lemma user_update_keeps_email (db : DB) (id : string)
    (data : Prisma.UserUpdateInput) (now : DateTime) (row : User.t) :
  users db !! id = Some row →
  Prisma.u_email data = None →
  Prisma.user_update id data now (Reachable db) =
    (inr (Prisma.apply_update data now row),
     Reachable {| users := <[id := Prisma.apply_update data now row]> (users db);
                  sessions := sessions db;
                  accounts := accounts db |}).
Proof.
  intros Hrow Hnone. unfold Prisma.user_update, Prisma.connect.
  rewrite Hrow, Hnone. reflexivity.
Qed.

Lemma user_update_missing (db : DB) (id : string)
    (data : Prisma.UserUpdateInput) (now : DateTime) :
  users db !! id = None →
  Prisma.user_update id data now (Reachable db) =
    (inl (PrismaClientKnownRequestError Prisma.P2025), Reachable db).
Proof.
  intros Hnone. unfold Prisma.user_update, Prisma.connect.
  rewrite Hnone. reflexivity.
Qed.

(** C8. Soft [remove] on an existing id, called twice: neither call
    throws, the row has [isActive = false] after the first call and after
    the second, its other columns except [updatedAt] stay as they were,
    and the session and account tables are the same after each call. *)
Theorem remove_twice (db : DB) (id : string) (now1 now2 : DateTime) (row : User.t) :
  users db !! id = Some row →
  ∃ (db1 db2 : DB) (row1 row2 : User.t),
    UsersService.remove id now1 (Reachable db) = (inr (), Reachable db1)
    ∧ UsersService.remove id now2 (Reachable db1) = (inr (), Reachable db2)
    ∧ users db1 !! id = Some row1 ∧ User.isActive row1 = false
    ∧ users db2 !! id = Some row2 ∧ User.isActive row2 = false
    ∧ (User.id row2, User.name row2, User.email row2, User.emailVerified row2,
       User.createdAt row2, User.image row2)
      = (User.id row, User.name row, User.email row, User.emailVerified row,
         User.createdAt row, User.image row)
    ∧ sessions db1 = sessions db ∧ accounts db1 = accounts db
    ∧ sessions db2 = sessions db ∧ accounts db2 = accounts db.
Proof.
  intros Hrow.
  pose (row1 := Prisma.apply_update UsersService.deactivate now1 row).
  pose (db1 := {| users := <[id := row1]> (users db);
                  sessions := sessions db; accounts := accounts db |}).
  assert (Hrow1 : users db1 !! id = Some row1) by apply lookup_insert_eq.
  pose (row2 := Prisma.apply_update UsersService.deactivate now2 row1).
  exists db1,
    {| users := <[id := row2]> (users db1);
       sessions := sessions db1; accounts := accounts db1 |}, row1, row2.
  split.
  { unfold UsersService.remove, bind.
    rewrite (user_update_keeps_email db id UsersService.deactivate now1 row Hrow eq_refl).
    reflexivity. }
  split.
  { unfold UsersService.remove, bind.
    rewrite (user_update_keeps_email db1 id UsersService.deactivate now2 row1 Hrow1 eq_refl).
    reflexivity. }
  split; [exact Hrow1|]. split; [reflexivity|].
  split; [apply lookup_insert_eq|].
  repeat split; reflexivity.
Qed.

Lemma remove_twice_witness :
  ∃ (db1 db2 : DB) (row1 row2 : User.t),
    UsersService.remove "u1" 400 (Reachable Fixtures.seeded) = (inr (), Reachable db1)
    ∧ UsersService.remove "u1" 500 (Reachable db1) = (inr (), Reachable db2)
    ∧ users db1 !! "u1" = Some row1 ∧ User.isActive row1 = false
    ∧ users db2 !! "u1" = Some row2 ∧ User.isActive row2 = false
    ∧ (User.id row2, User.name row2, User.email row2, User.emailVerified row2,
       User.createdAt row2, User.image row2)
      = (User.id Fixtures.U1, User.name Fixtures.U1, User.email Fixtures.U1,
         User.emailVerified Fixtures.U1, User.createdAt Fixtures.U1,
         User.image Fixtures.U1)
    ∧ sessions db1 = sessions Fixtures.seeded
    ∧ accounts db1 = accounts Fixtures.seeded
    ∧ sessions db2 = sessions Fixtures.seeded
    ∧ accounts db2 = accounts Fixtures.seeded.
Proof.
  apply (remove_twice Fixtures.seeded "u1" 400 500 Fixtures.U1).
  reflexivity.
Defined.

(** C10. [update] on an existing id touches that row alone: [id],
    [createdAt] and [image] keep their values, so does every DTO field
    that is absent from the input; when it returns, a field that is
    present has the input's value, [updatedAt] is the time of the call
    if some field is present, and with no field present the row is as
    before, [updatedAt] included; when the call throws the row is as
    before.  No other user row changes, nor do the session and account
    tables. *)
Theorem update_frame (db : DB) (id : string) (dto : UpdateUserDto.t)
    (now : DateTime) (row : User.t) :
  users db !! id = Some row →
  ∃ (db' : DB) (row' : User.t),
    (UsersService.update id dto now (Reachable db)).2 = Reachable db'
    ∧ users db' !! id = Some row'
    ∧ User.id row' = User.id row
    ∧ User.createdAt row' = User.createdAt row
    ∧ User.image row' = User.image row
    ∧ (UpdateUserDto.name dto = None → User.name row' = User.name row)
    ∧ (UpdateUserDto.email dto = None → User.email row' = User.email row)
    ∧ (UpdateUserDto.emailVerified dto = None →
       User.emailVerified row' = User.emailVerified row)
    ∧ (UpdateUserDto.isActive dto = None → User.isActive row' = User.isActive row)
    ∧ (∀ j, j ≠ id → users db' !! j = users db !! j)
    ∧ sessions db' = sessions db
    ∧ accounts db' = accounts db
    ∧ ((∃ e, (UsersService.update id dto now (Reachable db)).1 = inl e ∧ row' = row)
       ∨ ((UsersService.update id dto now (Reachable db)).1 = inr row'
          ∧ ((UpdateUserDto.name dto, UpdateUserDto.email dto,
              UpdateUserDto.emailVerified dto, UpdateUserDto.isActive dto)
             = (None, None, None, None) → row' = row)
          ∧ ((UpdateUserDto.name dto, UpdateUserDto.email dto,
              UpdateUserDto.emailVerified dto, UpdateUserDto.isActive dto)
             ≠ (None, None, None, None) → User.updatedAt row' = now)
          ∧ (∀ n, UpdateUserDto.name dto = Some n → User.name row' = Some n)
          ∧ (∀ e, UpdateUserDto.email dto = Some e → User.email row' = e)
          ∧ (∀ b, UpdateUserDto.emailVerified dto = Some b →
                  User.emailVerified row' = b)
          ∧ (∀ b, UpdateUserDto.isActive dto = Some b → User.isActive row' = b))).
Proof.
  intros Hrow. unfold UsersService.update.
  destruct (user_update_existing db id (UsersService.update_data dto) now row Hrow)
    as [-> | ->]; simpl.
  - exists db, row. repeat split; try done. left. eauto.
  - eexists _, _. split; [reflexivity|]. simpl.
    split; [apply lookup_insert_eq|].
    destruct dto as [n e v a]; simpl.
    repeat split; try done.
    + by intros ->.
    + by intros ->.
    + by intros ->.
    + by intros ->.
    + intros j Hj. by apply lookup_insert_ne.
    + right. split; [reflexivity|]. split.
      { intros [= -> -> -> ->]. by destruct row. }
      split.
      { intros Hsome. unfold Prisma.empty_update. simpl.
        destruct n, e, v, a; done. }
      repeat split.
      * by intros ? ->.
      * by intros ? ->.
      * by intros ? ->.
      * by intros ? ->.
Qed.

Lemma update_frame_witness :
  ∃ (db' : DB) (row' : User.t),
    (UsersService.update "u1" (UpdateUserDto.mk (Some "Anna") None None None) 400
       (Reachable Fixtures.seeded)).2 = Reachable db'
    ∧ users db' !! "u1" = Some row'
    ∧ User.name row' = Some "Anna"
    ∧ User.email row' = "a@x.com"
    ∧ User.isActive row' = true
    ∧ users db' !! "u2" = Some Fixtures.U2.
Proof.
  destruct (update_frame Fixtures.seeded "u1"
              (UpdateUserDto.mk (Some "Anna") None None None) 400 Fixtures.U1
              eq_refl)
    as (db' & row' & Hst & Hrow' & _ & _ & _ & _ & Hemail & _ & Hactive
        & Hothers & _ & _ & Hres).
  exists db', row'. split; [exact Hst|]. split; [exact Hrow'|].
  split.
  { destruct Hres as [(e & He & _) | (_ & _ & _ & Hname & _)].
    - vm_compute in He. discriminate He.
    - apply Hname. reflexivity. }
  split; [rewrite (Hemail eq_refl); reflexivity|].
  split; [rewrite (Hactive eq_refl); reflexivity|].
  rewrite (Hothers "u2") by discriminate. reflexivity.
Defined.

(** C4, as stated, fails: on the seeded store [update] and [remove] of
    the absent id ["u9"] and [create] with the taken email ["a@x.com"] all
    throw, and what they throw reaches the caller as the generic failure
    kind, not as [NotFound] or [Conflict]. *)
Lemma store_errors_surface_generic_counterexample :
  users Fixtures.seeded !! "u9" = None
  ∧ users Fixtures.seeded !! "u1" = Some Fixtures.U1
  ∧ User.email Fixtures.U1 = "a@x.com"
  ∧ thrown_kind (UsersService.update "u9" (UpdateUserDto.mk (Some "Zed") None None None)
                   400 (Reachable Fixtures.seeded)) = Some UnexpectedStoreFailure
  ∧ thrown_kind (UsersService.update "u9" (UpdateUserDto.mk (Some "Zed") None None None)
                   400 (Reachable Fixtures.seeded)) ≠ Some NotFound
  ∧ thrown_kind (UsersService.remove "u9" 400 (Reachable Fixtures.seeded))
    = Some UnexpectedStoreFailure
  ∧ thrown_kind (UsersService.remove "u9" 400 (Reachable Fixtures.seeded))
    ≠ Some NotFound
  ∧ thrown_kind (UsersService.create (CreateUserDto.mk None "a@x.com" None None)
                   400 (Reachable Fixtures.seeded)) = Some UnexpectedStoreFailure
  ∧ thrown_kind (UsersService.create (CreateUserDto.mk None "a@x.com" None None)
                   400 (Reachable Fixtures.seeded)) ≠ Some Conflict.
Proof. vm_compute. repeat split; congruence. Qed.

(** C4, amended. The service rethrows what the store throws, unchanged
    and with the store untouched: the record-not-found error [P2025] for
    [update], [remove] and [hardDelete] of an absent id, the
    unique-constraint error [P2002] for [create] with a taken email.  The
    two errors differ in their code only; neither is an [HttpException],
    so both are answered with status 500. *)
Theorem service_rethrows_store_errors (db : DB) :
  (∀ id dto now, users db !! id = None →
     UsersService.update id dto now (Reachable db)
     = (inl (PrismaClientKnownRequestError "P2025"), Reachable db))
  ∧ (∀ id now, users db !! id = None →
       UsersService.remove id now (Reachable db)
       = (inl (PrismaClientKnownRequestError "P2025"), Reachable db))
  ∧ (∀ id, users db !! id = None →
       UsersService.hardDelete id (Reachable db)
       = (inl (PrismaClientKnownRequestError "P2025"), Reachable db))
  ∧ (∀ dto now,
       (∃ i u, users db !! i = Some u ∧ User.email u = CreateUserDto.email dto) →
       UsersService.create dto now (Reachable db)
       = (inl (PrismaClientKnownRequestError "P2002"), Reachable db))
  ∧ (∀ code, response_status (PrismaClientKnownRequestError code) = 500
             ∧ failure_kind (PrismaClientKnownRequestError code)
               = UnexpectedStoreFailure).
Proof.
  split; [|split; [|split; [|split]]].
  - intros id dto now Hnone. unfold UsersService.update.
    by rewrite user_update_missing.
  - intros id now Hnone. unfold UsersService.remove, bind.
    by rewrite user_update_missing.
  - intros id Hnone.
    unfold UsersService.hardDelete, bind, Prisma.user_delete, Prisma.connect.
    by rewrite Hnone.
  - intros dto now Htaken.
    apply (by_email_Some (CreateUserDto.email dto) db) in Htaken as [u Hu].
    unfold UsersService.create, Prisma.user_create, Prisma.connect. simpl.
    by rewrite Hu.
  - intros code. split; reflexivity.
Qed.

Lemma service_rethrows_store_errors_witness :
  UsersService.update "u9" (UpdateUserDto.mk (Some "Zed") None None None) 400
    (Reachable Fixtures.seeded)
  = (inl (PrismaClientKnownRequestError "P2025"), Reachable Fixtures.seeded)
  ∧ UsersService.remove "u9" 400 (Reachable Fixtures.seeded)
    = (inl (PrismaClientKnownRequestError "P2025"), Reachable Fixtures.seeded)
  ∧ UsersService.create (CreateUserDto.mk None "a@x.com" None None) 400
      (Reachable Fixtures.seeded)
    = (inl (PrismaClientKnownRequestError "P2002"), Reachable Fixtures.seeded).
Proof.
  destruct (service_rethrows_store_errors Fixtures.seeded)
    as (Hupdate & Hremove & _ & Hcreate & _).
  split; [apply Hupdate; reflexivity|].
  split; [apply Hremove; reflexivity|].
  apply Hcreate. exists "u1", Fixtures.U1. split; reflexivity.
Defined.

(** ** AuthGuard *)

(** The guard has two outcomes: it lets a valid session through with
    identity attached, or throws the one authentication failure; the
    store is never written. *)
Lemma canActivate_cases (auth : AuthProvider) (req : Request) (st : Store) :
  (AuthGuard.canActivate auth req st = (inl authentication_failed, st)
   ∧ ∀ r s, ¬ valid_session auth req st r s)
  ∨ (∃ r s, valid_session auth req st r s
            ∧ AuthGuard.canActivate auth req st
              = (inr (true, AuthGuard.attach req (result_user r) s), st)).
Proof.
  unfold AuthGuard.canActivate, try_catch, AuthGuard.attempt, bind, await,
    valid_session.
  destruct (api_getSession auth (headers req)) as [e | [r|]] eqn:Hget; simpl.
  - left. split; [done|]. intros r s (? & _). congruence.
  - destruct (result_session r) as [s|] eqn:Hs; simpl.
    + destruct st as [db|]; simpl.
      * destruct (users db !! Session.userId s) as [u|] eqn:Hu; simpl.
        -- destruct (User.isActive u) eqn:Ha; simpl.
           ++ right. exists r, s. split; [|done].
              split; [done|]. split; [done|]. exists db, u. done.
           ++ left. split; [done|].
              intros r' s' (Hr' & Hs' & db' & u' & Hst & Hu' & Ha').
              simplify_eq; congruence.
        -- left. split; [done|].
           intros r' s' (Hr' & Hs' & db' & u' & Hst & Hu' & Ha').
           simplify_eq; congruence.
      * left. split; [done|].
        intros r' s' (_ & _ & db' & u' & Hst & _). discriminate.
    + left. split; [done|]. intros r' s' (Hr' & Hs' & _).
      simplify_eq; congruence.
  - left. split; [done|]. intros r s (? & _). congruence.
Qed.

Lemma canActivate_thrown (auth : AuthProvider) (req : Request) (st : Store)
    (e : Thrown) :
  (AuthGuard.canActivate auth req st).1 = inl e → e = authentication_failed.
Proof.
  destruct (canActivate_cases auth req st) as [[-> _] | (r & s & _ & ->)];
    simpl; congruence.
Qed.

Lemma canActivate_store (auth : AuthProvider) (req : Request) (st : Store) :
  (AuthGuard.canActivate auth req st).2 = st.
Proof.
  by destruct (canActivate_cases auth req st) as [[-> _] | (r & s & _ & ->)].
Qed.

(** A route with a guard only reaches its handler through the guard. *)
Lemma execute_guarded (pipe : Router.Handler → Request → option Thrown)
    (r : Router.Route) (auth : AuthProvider) (req : Request) (st : Store) :
  Router.guards r ≠ [] →
  AuthGuard.canActivate auth req st = (inl authentication_failed, st) →
  Router.execute pipe r auth req st = (inl authentication_failed, st).
Proof.
  intros Hg Hrej. unfold Router.execute, bind.
  destruct (Router.guards r) as [|[] gs]; [done|]. simpl.
  unfold bind. by rewrite Hrej.
Qed.

Lemma canActivate_rejected (auth : AuthProvider) (req : Request) (st : Store)
    (e : Thrown) :
  (AuthGuard.canActivate auth req st).1 = inl e →
  AuthGuard.canActivate auth req st = (inl authentication_failed, st).
Proof.
  intros He.
  destruct (canActivate_cases auth req st) as [[H _] | (r & s & _ & H)];
    [exact H|].
  rewrite H in He. discriminate He.
Qed.

Lemma run_guards_thrown (gs : list Router.Guard) (auth : AuthProvider)
    (req : Request) (st : Store) (e : Thrown) :
  (Router.run_guards gs auth req st).1 = inl e → e = authentication_failed.
Proof.
  revert req. induction gs as [|[] gs IH]; intros req; simpl; [done|].
  unfold bind.
  destruct (canActivate_cases auth req st) as [[-> _] | (r & s & _ & ->)];
    simpl.
  - congruence.
  - apply IH.
Qed.

(** C1. When the session resolves to a user id for which the store holds
    no row, or a row with [isActive = false], the guard throws the
    authentication failure and leaves the store alone, and on every route
    that carries the guard the request is answered with that failure
    instead of reaching the handler. *)
Theorem guard_rejects_missing_or_inactive (auth : AuthProvider) (req : Request)
    (db : DB) (r : SessionResult) (s : Session.t) :
  api_getSession auth (headers req) = inr (Some r) →
  result_session r = Some s →
  (users db !! Session.userId s = None
   ∨ ∃ u, users db !! Session.userId s = Some u ∧ User.isActive u = false) →
  AuthGuard.canActivate auth req (Reachable db)
  = (inl (UnauthorizedException "Authentication failed"), Reachable db)
  ∧ failure_kind (UnauthorizedException "Authentication failed")
    = AuthenticationFailure
  ∧ (∀ pipe route, Router.AuthGuard ∈ Router.guards route →
       Router.execute pipe route auth req (Reachable db)
       = (inl (UnauthorizedException "Authentication failed"), Reachable db))
  ∧ (∀ decode pipe route, Router.dispatch decode req = inr (Some route) →
       Router.AuthGuard ∈ Router.guards route →
       Router.handle decode pipe auth req (Reachable db)
       = (inl (UnauthorizedException "Authentication failed"), Reachable db)).
Proof.
  intros Hget Hs Hrow.
  assert (Hrej : AuthGuard.canActivate auth req (Reachable db)
                 = (inl authentication_failed, Reachable db)).
  { destruct (canActivate_cases auth req (Reachable db))
      as [[H _] | (r' & s' & (Hr' & Hs' & db' & u' & Hst & Hu' & Ha') & _)];
      [exact H|].
    simplify_eq. destruct Hrow as [Hnone | (u & Hu & Hina)]; congruence. }
  assert (Hexec : ∀ pipe route, Router.AuthGuard ∈ Router.guards route →
            Router.execute pipe route auth req (Reachable db)
            = (inl authentication_failed, Reachable db)).
  { intros pipe route Hin. apply execute_guarded; [|exact Hrej].
    intros Hnil. rewrite Hnil in Hin. by apply elem_of_nil in Hin. }
  split; [exact Hrej|]. split; [reflexivity|]. split; [exact Hexec|].
  intros decode pipe route Hd Hin. unfold Router.handle. rewrite Hd.
  by apply Hexec.
Qed.

(** The inactive user of the seeded store, holding a live session, asks
    for the user list. *)
Lemma guard_rejects_missing_or_inactive_witness :
  Router.handle Fixtures.unescaped Fixtures.no_arguments
    (Fixtures.resolving
       (Some (mkSessionResult (Some Fixtures.S2) (Some Fixtures.AU2))))
    (Fixtures.request_to GET "/api/users") (Reachable Fixtures.seeded)
  = (inl (UnauthorizedException "Authentication failed"),
     Reachable Fixtures.seeded).
Proof.
  destruct (guard_rejects_missing_or_inactive
              (Fixtures.resolving
                 (Some (mkSessionResult (Some Fixtures.S2) (Some Fixtures.AU2))))
              (Fixtures.request_to GET "/api/users") Fixtures.seeded
              (mkSessionResult (Some Fixtures.S2) (Some Fixtures.AU2))
              Fixtures.S2 eq_refl eq_refl
              (or_intror (ex_intro _ Fixtures.U2 (conj eq_refl eq_refl))))
    as (_ & _ & _ & Hhandle).
  apply (Hhandle Fixtures.unescaped Fixtures.no_arguments
           (Router.mkRoute Router.Get
              [Router.lit "api"; Router.lit "users"]
              [Router.AuthGuard] Router.UsersController_findAll)).
  - vm_compute. reflexivity.
  - simpl. left.
Defined.

(** C3. Any two rejections by the guard carry the same thrown value,
    the unauthorized exception with the message "Authentication failed",
    whichever step failed and for whatever reason; on routes that carry
    the guard, that value is what the two requests are answered with. *)
Theorem rejections_indistinguishable
    (auth1 auth2 : AuthProvider) (req1 req2 : Request) (st1 st2 : Store)
    (e1 e2 : Thrown) :
  (AuthGuard.canActivate auth1 req1 st1).1 = inl e1 →
  (AuthGuard.canActivate auth2 req2 st2).1 = inl e2 →
  e1 = e2
  ∧ e1 = UnauthorizedException "Authentication failed"
  ∧ failure_kind e1 = AuthenticationFailure
  ∧ response_status e1 = 401
  ∧ (∀ pipe route1 route2,
       Router.AuthGuard ∈ Router.guards route1 →
       Router.AuthGuard ∈ Router.guards route2 →
       (Router.execute pipe route1 auth1 req1 st1).1 = inl e1
       ∧ (Router.execute pipe route2 auth2 req2 st2).1 = inl e1).
Proof.
  intros H1 H2.
  pose proof (canActivate_rejected _ _ _ _ H1) as Hrej1.
  pose proof (canActivate_rejected _ _ _ _ H2) as Hrej2.
  apply canActivate_thrown in H1 as ->. apply canActivate_thrown in H2 as ->.
  split; [reflexivity|]. split; [reflexivity|]. split; [reflexivity|].
  split; [reflexivity|].
  intros pipe route1 route2 Hin1 Hin2. split.
  - rewrite (execute_guarded pipe route1 auth1 req1 st1); [done| |exact Hrej1].
    intros Hnil. rewrite Hnil in Hin1. by apply elem_of_nil in Hin1.
  - rewrite (execute_guarded pipe route2 auth2 req2 st2); [done| |exact Hrej2].
    intros Hnil. rewrite Hnil in Hin2. by apply elem_of_nil in Hin2.
Qed.

(** One request fails because the resolver throws while the store is
    unreachable, the other because its user is inactive. *)
Lemma rejections_indistinguishable_witness :
  (AuthGuard.canActivate Fixtures.failing
     (Fixtures.request_to GET "/api/users/me") Unreachable).1
  = inl (UnauthorizedException "Authentication failed")
  ∧ (AuthGuard.canActivate
       (Fixtures.resolving
          (Some (mkSessionResult (Some Fixtures.S2) (Some Fixtures.AU2))))
       (Fixtures.request_to DELETE "/api/users/u1") (Reachable Fixtures.seeded)).1
    = inl (UnauthorizedException "Authentication failed")
  ∧ failure_kind (UnauthorizedException "Authentication failed")
    = AuthenticationFailure.
Proof.
  split; [reflexivity|]. split; [reflexivity|].
  apply (rejections_indistinguishable Fixtures.failing
           (Fixtures.resolving
              (Some (mkSessionResult (Some Fixtures.S2) (Some Fixtures.AU2))))
           (Fixtures.request_to GET "/api/users/me")
           (Fixtures.request_to DELETE "/api/users/u1")
           Unreachable (Reachable Fixtures.seeded)
           (UnauthorizedException "Authentication failed")
           (UnauthorizedException "Authentication failed")
           eq_refl eq_refl).
Defined.

(** C2. When the resolver returns no session, or returns no user (by its
    contract the provider returns a session and a user together or no
    result at all), the [try] block throws at the session check, before
    the store is asked for the user: on any store, reachable or not, the
    store is untouched and the guard rejects with the authentication
    failure, as does every route that carries the guard. *)
Theorem session_lookup_rejects (auth : AuthProvider) (req : Request) (st : Store)
    (result : option SessionResult) :
  api_getSession auth (headers req) = inr result →
  (AuthGuard.session_of result = None
   ∨ (honours_contract auth ∧ AuthGuard.user_of result = None)) →
  AuthGuard.attempt auth req st
  = (inl (UnauthorizedException "Invalid or expired session"), st)
  ∧ AuthGuard.canActivate auth req st
    = (inl (UnauthorizedException "Authentication failed"), st)
  ∧ (∀ pipe route, Router.AuthGuard ∈ Router.guards route →
       Router.execute pipe route auth req st
       = (inl (UnauthorizedException "Authentication failed"), st)).
Proof.
  intros Hget Hmissing.
  assert (Hnone : AuthGuard.session_of result = None).
  { destruct Hmissing as [H | [Hcontract Huser]]; [exact H|].
    destruct result as [r|]; [|reflexivity].
    destruct (Hcontract (headers req) r Hget) as [_ [u Hu]].
    simpl in Huser. congruence. }
  assert (Hattempt : AuthGuard.attempt auth req st
            = (inl (UnauthorizedException "Invalid or expired session"), st)).
  { unfold AuthGuard.attempt, bind, await. rewrite Hget. simpl.
    by rewrite Hnone. }
  assert (Hrej : AuthGuard.canActivate auth req st
                 = (inl authentication_failed, st)).
  { unfold AuthGuard.canActivate, try_catch. by rewrite Hattempt. }
  split; [exact Hattempt|]. split; [exact Hrej|].
  intros pipe route Hin. apply execute_guarded; [|exact Hrej].
  intros Hnil. rewrite Hnil in Hin. by apply elem_of_nil in Hin.
Qed.

(** A provider that finds no session for the request's cookie, on a store
    that cannot be reached. *)
Lemma session_lookup_rejects_witness :
  AuthGuard.attempt (Fixtures.resolving None)
    (Fixtures.request_to GET "/api/users/me") Unreachable
  = (inl (UnauthorizedException "Invalid or expired session"), Unreachable)
  ∧ AuthGuard.canActivate (Fixtures.resolving None)
      (Fixtures.request_to GET "/api/users/me") Unreachable
    = (inl (UnauthorizedException "Authentication failed"), Unreachable)
  ∧ (∀ pipe route, Router.AuthGuard ∈ Router.guards route →
       Router.execute pipe route (Fixtures.resolving None)
         (Fixtures.request_to GET "/api/users/me") Unreachable
       = (inl (UnauthorizedException "Authentication failed"), Unreachable)).
Proof.
  apply (session_lookup_rejects (Fixtures.resolving None)
           (Fixtures.request_to GET "/api/users/me") Unreachable None).
  - reflexivity.
  - right. split; [|reflexivity]. intros h r Hr. discriminate Hr.
Defined.

(** ** RawBodyMiddleware *)

Lemma is_auth_route_spec (req : Request) :
  RawBodyMiddleware.is_auth_route req = true ↔
  ∃ p, (baseUrl req = Some p ∨ url req = Some p)
       ∧ String.prefix "/api/auth" p = true.
Proof.
  unfold RawBodyMiddleware.is_auth_route, RawBodyMiddleware.startsWith.
  rewrite orb_true_iff. split.
  - intros [H | H].
    + destruct (baseUrl req) as [b|]; [|discriminate]. exists b. eauto.
    + destruct (url req) as [u|]; [|discriminate]. exists u. eauto.
  - intros (p & [-> | ->] & Hp); [left | right]; exact Hp.
Qed.

(** C5. A request whose [baseUrl] or [url] starts with the
    authentication route prefix goes to [next] as it came, with no parser
    invoked.  On every other request the JSON parser is invoked first,
    with the 5mb cap, and then the URL-encoded parser, extended and with
    the 5mb cap, on the request as the JSON parser left it; what the
    URL-encoded parser calls back with goes to [next].  Only a JSON parser
    that reports an error ends the chain: that error goes to [next], which
    is the short-circuit the design asks for on a malformed body. *)
Theorem use_routes_body_parsing
    (express_json : Z → Request → option Thrown * Request)
    (express_urlencoded : bool → Z → Request → option Thrown * Request)
    (req : Request) :
  ((∃ p, (baseUrl req = Some p ∨ url req = Some p)
         ∧ String.prefix "/api/auth" p = true) →
   RawBodyMiddleware.use express_json express_urlencoded req
   = {| RawBodyMiddleware.calls := [];
        RawBodyMiddleware.err := None;
        RawBodyMiddleware.request := req |})
  ∧ (¬ (∃ p, (baseUrl req = Some p ∨ url req = Some p)
             ∧ String.prefix "/api/auth" p = true) →
     match express_json 5242880 req with
     | (None, req1) =>
         RawBodyMiddleware.use express_json express_urlencoded req
         = {| RawBodyMiddleware.calls :=
                [RawBodyMiddleware.express_json_call 5242880;
                 RawBodyMiddleware.express_urlencoded_call true 5242880];
              RawBodyMiddleware.err :=
                (express_urlencoded true 5242880 req1).1;
              RawBodyMiddleware.request :=
                (express_urlencoded true 5242880 req1).2 |}
     | (Some e, req1) =>
         RawBodyMiddleware.use express_json express_urlencoded req
         = {| RawBodyMiddleware.calls :=
                [RawBodyMiddleware.express_json_call 5242880];
              RawBodyMiddleware.err := Some e;
              RawBodyMiddleware.request := req1 |}
     end).
Proof.
  split.
  - intros Hauth. apply is_auth_route_spec in Hauth.
    unfold RawBodyMiddleware.use. by rewrite Hauth.
  - intros Hnot.
    assert (Hroute : RawBodyMiddleware.is_auth_route req = false).
    { destruct (RawBodyMiddleware.is_auth_route req) eqn:Hr; [|done].
      destruct Hnot. by apply is_auth_route_spec. }
    unfold RawBodyMiddleware.use. rewrite Hroute.
    change RawBodyMiddleware.limit_5mb with 5242880.
    destruct (express_json 5242880 req) as [[e|] req1]; [reflexivity|].
    by destruct (express_urlencoded true 5242880 req1).
Qed.

(** A sign-in request passes untouched, whatever its body; a request to
    the users routes with an empty JSON object goes through the JSON
    parser, which attaches the object, and then through the URL-encoded
    parser. *)
Lemma use_routes_body_parsing_witness :
  RawBodyMiddleware.use Fixtures.json_parser Fixtures.urlencoded_parser
    (Fixtures.posting_json "/api/auth/sign-in/email" "{oops")
  = {| RawBodyMiddleware.calls := [];
       RawBodyMiddleware.err := None;
       RawBodyMiddleware.request :=
         Fixtures.posting_json "/api/auth/sign-in/email" "{oops" |}
  ∧ RawBodyMiddleware.use Fixtures.json_parser Fixtures.urlencoded_parser
      (Fixtures.posting_json "/api/users" "{}")
    = {| RawBodyMiddleware.calls :=
           [RawBodyMiddleware.express_json_call 5242880;
            RawBodyMiddleware.express_urlencoded_call true 5242880];
         RawBodyMiddleware.err := None;
         RawBodyMiddleware.request :=
           Fixtures.with_body (Fixtures.posting_json "/api/users" "{}")
             (JObject []) |}.
Proof.
  split.
  - apply (use_routes_body_parsing Fixtures.json_parser
             Fixtures.urlencoded_parser
             (Fixtures.posting_json "/api/auth/sign-in/email" "{oops")).
    exists "/api/auth/sign-in/email". split; [right|]; reflexivity.
  - apply (proj2 (use_routes_body_parsing Fixtures.json_parser
                    Fixtures.urlencoded_parser
                    (Fixtures.posting_json "/api/users" "{}"))).
    intros (p & [Hp | Hp] & Hpre); simpl in Hp; injection Hp as <-;
      vm_compute in Hpre; discriminate Hpre.
Defined.

(** With the stand-in parsers: malformed text sent as JSON stops the
    chain at the JSON parser, which has by then given the request its
    empty body object; the same text sent without a content type is no
    concern of either parser, and both are invoked. *)
Example use_malformed_json :
  RawBodyMiddleware.use Fixtures.json_parser Fixtures.urlencoded_parser
    (Fixtures.posting_json "/api/users" "{oops")
  = {| RawBodyMiddleware.calls := [RawBodyMiddleware.express_json_call 5242880];
       RawBodyMiddleware.err :=
         Some (HttpException 400 "Unexpected token in JSON");
       RawBodyMiddleware.request :=
         Fixtures.with_body (Fixtures.posting_json "/api/users" "{oops")
           (JObject []) |}.
Proof. vm_compute. reflexivity. Qed.

Example use_untyped_body :
  RawBodyMiddleware.use Fixtures.json_parser Fixtures.urlencoded_parser
    (Fixtures.posting "/api/users" "{oops")
  = {| RawBodyMiddleware.calls :=
         [RawBodyMiddleware.express_json_call 5242880;
          RawBodyMiddleware.express_urlencoded_call true 5242880];
       RawBodyMiddleware.err := None;
       RawBodyMiddleware.request :=
         Fixtures.with_body (Fixtures.posting "/api/users" "{oops")
           (JObject []) |}.
Proof. vm_compute. reflexivity. Qed.

(** ** The route table *)

Lemma guarded_requires_session (r : Router.Route) :
  Router.guards r = [Router.AuthGuard] → requires_session r.
Proof.
  intros Hg auth req st. split.
  - intros req' Hrun. rewrite Hg in Hrun. simpl in Hrun. unfold bind in Hrun.
    destruct (canActivate_cases auth req st)
      as [[Hrej _] | (sr & s & Hvalid & _)]; [|eauto].
    rewrite Hrej in Hrun. discriminate Hrun.
  - intros Hinvalid pipe. apply execute_guarded; [by rewrite Hg|].
    destruct (canActivate_cases auth req st)
      as [[Hrej _] | (sr & s & Hvalid & _)]; [exact Hrej|].
    by destruct (Hinvalid sr s).
Qed.

Lemma unguarded_not_gated (r : Router.Route) :
  Router.guards r = [] → not_gated r.
Proof. intros Hg auth req st. by rewrite Hg. Qed.

(** C6, as stated, fails: [GET /health] and [GET /] are not gated by the
    guard.  Neither route declares a guard, and a request that carries no
    session at all gets past the guards of [GET /health] and reaches
    [getHealth]. *)
Lemma health_needs_no_session_counterexample :
  api_getSession (Fixtures.resolving None)
    (headers (Fixtures.request_to GET "/api/health")) = inr None
  ∧ Router.guards <$> Router.declared Router.Get [Router.lit "health"] = Some []
  ∧ Router.guards <$> Router.declared Router.Get [] = Some []
  ∧ Router.run_guards [] (Fixtures.resolving None)
      (Fixtures.request_to GET "/api/health") (Reachable Fixtures.seeded)
    = (inr (Fixtures.request_to GET "/api/health"), Reachable Fixtures.seeded)
  ∧ Router.handle Fixtures.unescaped Fixtures.no_arguments
      (Fixtures.resolving None)
      (Fixtures.request_to GET "/api/health") (Reachable Fixtures.seeded)
    = (inr (Router.AppController_getHealth,
            Fixtures.request_to GET "/api/health"),
       Reachable Fixtures.seeded).
Proof. repeat split; vm_compute; reflexivity. Qed.

(** C6, amended. Of the eight non-auth routes, the five [users] routes
    other than [POST /users] carry the guard and require a valid session;
    [POST /users], [GET /] and [GET /health] carry no guard: a request
    gets past their guards without a session. *)
Theorem users_routes_gated_except_create :
  Forall (λ vp, ∃ r, Router.declared vp.1 vp.2 = Some r
                     ∧ Router.guards r = [Router.AuthGuard]
                     ∧ requires_session r)
    [ (Router.Get, [Router.lit "users"]);
      (Router.Get, [Router.lit "users"; Router.lit "me"]);
      (Router.Get, [Router.lit "users"; Router.param "id"]);
      (Router.Patch, [Router.lit "users"; Router.param "id"]);
      (Router.Delete, [Router.lit "users"; Router.param "id"]) ]
  ∧ Forall (λ vp, ∃ r, Router.declared vp.1 vp.2 = Some r
                       ∧ Router.guards r = []
                       ∧ not_gated r)
      [ (Router.Post, [Router.lit "users"]);
        (Router.Get, []);
        (Router.Get, [Router.lit "health"]) ].
Proof.
  split.
  - repeat constructor; simpl;
      (eexists; split; [vm_compute; reflexivity|];
       split; [reflexivity|]; by apply guarded_requires_session).
  - repeat constructor; simpl;
      (eexists; split; [vm_compute; reflexivity|];
       split; [reflexivity|]; by apply unguarded_not_gated).
Qed.

(** Requests are dispatched to those declarations under the global
    prefix.  [users/me] is declared before [users/:id] and wins, in any
    letter case; a [HEAD] request takes the [GET] route; a doubled slash
    and a bare [/api/auth] match no route. *)
Example dispatch_users_me :
  handler_of (Router.dispatch Fixtures.unescaped
                (Fixtures.request_to GET "/api/users/ME?x=1"))
  = inr (Some Router.UsersController_getCurrentUser).
Proof. vm_compute. reflexivity. Qed.

Example dispatch_users_id :
  handler_of (Router.dispatch Fixtures.unescaped
                (Fixtures.request_to PATCH "/api/users/u1/"))
  = inr (Some Router.UsersController_update).
Proof. vm_compute. reflexivity. Qed.

Example dispatch_head :
  handler_of (Router.dispatch Fixtures.unescaped
                (Fixtures.request_to HEAD "/api/users"))
  = inr (Some Router.UsersController_findAll).
Proof. vm_compute. reflexivity. Qed.

Example dispatch_auth :
  handler_of (Router.dispatch Fixtures.unescaped
                (Fixtures.request_to POST "/api/auth/sign-in/email"))
  = inr (Some Router.AuthController_handleAuth).
Proof. vm_compute. reflexivity. Qed.

Example dispatch_no_route :
  Router.dispatch Fixtures.unescaped (Fixtures.request_to GET "/api//users")
  = inr None
  ∧ Router.dispatch Fixtures.unescaped (Fixtures.request_to GET "/api/auth")
    = inr None.
Proof. split; vm_compute; reflexivity. Qed.

(** The scenario of the seeded store: [findAll] lists the active users
    newest first, and [findOne] still finds the inactive one. *)
Example findAll_seeded :
  (UsersService.findAll (Reachable Fixtures.seeded)).1
  = inr [Fixtures.U3; Fixtures.U1].
Proof. vm_compute. reflexivity. Qed.

Example findOne_inactive :
  (UsersService.findOne "u2" (Reachable Fixtures.seeded)).1
  = inr (Some Fixtures.U2).
Proof. vm_compute. reflexivity. Qed.

(** * Further properties of the services *)

(** ** The store's integrity is kept *)

Lemma discard_result_store {A} (c : M A) (s : Store) :
  (bind c (λ _, ret ()) s).2 = (c s).2.
Proof. unfold bind, ret. by destruct (c s) as [[e|a] s']. Qed.

Lemma email_not_taken (self e : string) (db : DB) :
  Prisma.email_taken_by_other self e db = false →
  ∀ j v, users db !! j = Some v → User.email v = e → User.id v = self.
Proof.
  unfold Prisma.email_taken_by_other. intros Hfalse j v Hv He.
  apply bool_decide_eq_false in Hfalse.
  destruct (decide (User.id v = self)) as [|Hne]; [done|].
  destruct Hfalse. apply Exists_exists. exists v. split; [|done].
  apply elem_of_rows. eauto.
Qed.

Lemma email_taken (self e : string) (db : DB) :
  Prisma.email_taken_by_other self e db = true →
  ∃ j v, users db !! j = Some v ∧ User.email v = e ∧ User.id v ≠ self.
Proof.
  unfold Prisma.email_taken_by_other. intros Htrue.
  apply bool_decide_eq_true in Htrue.
  apply Exists_exists in Htrue as (v & Hin & He & Hne).
  apply elem_of_rows in Hin as [j Hj]. eauto.
Qed.

Lemma user_create_unique (data : Prisma.UserCreateInput) (now : DateTime) :
  preserves unique_keyed (Prisma.user_create data now).
Proof.
  intros db [Hkeys Huniq].
  unfold Prisma.user_create, Prisma.connect.
  destruct (Prisma.by_email (Prisma.c_email data) db) as [u|] eqn:Hmail.
  { exists db. done. }
  eexists. split; [reflexivity|].
  unfold unique_keyed, keys_consistent, emails_unique, references_intact. simpl.
  apply by_email_None in Hmail.
  pose proof (cuid_fresh db) as Hfresh.
  split.
  - intros i u Hi. destruct (decide (i = Prisma.cuid db)) as [->|Hne].
    + rewrite lookup_insert_eq in Hi. by injection Hi as <-.
    + rewrite lookup_insert_ne in Hi by done. by apply Hkeys.
  - intros i j u v Hi Hj Heq.
    destruct (decide (i = Prisma.cuid db)) as [->|Hi'],
             (decide (j = Prisma.cuid db)) as [->|Hj']; [done|..].
    + rewrite lookup_insert_eq in Hi. injection Hi as <-.
      rewrite lookup_insert_ne in Hj by done.
      simpl in Heq. by destruct (Hmail j v Hj).
    + rewrite lookup_insert_eq in Hj. injection Hj as <-.
      rewrite lookup_insert_ne in Hi by done.
      simpl in Heq. by destruct (Hmail i u Hi).
    + rewrite lookup_insert_ne in Hi, Hj by done. eauto.
Qed.

Lemma user_update_unique (id : string) (data : Prisma.UserUpdateInput)
    (now : DateTime) :
  preserves unique_keyed (Prisma.user_update id data now).
Proof.
  intros db [Hkeys Huniq].
  unfold Prisma.user_update, Prisma.connect.
  destruct (users db !! id) as [row|] eqn:Hrow; [|by exists db].
  destruct (match Prisma.u_email data with
            | Some e => Prisma.email_taken_by_other id e db
            | None => false
            end) eqn:Htaken; [by exists db|].
  eexists. split; [reflexivity|].
  unfold unique_keyed, keys_consistent, emails_unique, references_intact. simpl.
  assert (Hclash : ∀ j v, j ≠ id → users db !! j = Some v →
            User.email v ≠ User.email (Prisma.apply_update data now row)).
  { intros j v Hj Hv Heq. simpl in Heq.
    destruct (Prisma.u_email data) as [e|]; simpl in Heq.
    - pose proof (email_not_taken id e db Htaken j v Hv Heq) as Hid.
      apply Hkeys in Hv. congruence.
    - apply Hj. by apply (Huniq j id v row). }
  split.
  - intros i u Hi. destruct (decide (i = id)) as [->|Hne].
    + rewrite lookup_insert_eq in Hi. injection Hi as <-. simpl.
      by apply Hkeys.
    + rewrite lookup_insert_ne in Hi by done. by apply Hkeys.
  - intros i j u v Hi Hj Heq.
    destruct (decide (i = id)) as [->|Hi'],
             (decide (j = id)) as [->|Hj']; [done|..].
    + rewrite lookup_insert_eq in Hi. injection Hi as <-.
      rewrite lookup_insert_ne in Hj by done.
      by destruct (Hclash j v Hj' Hj).
    + rewrite lookup_insert_eq in Hj. injection Hj as <-.
      rewrite lookup_insert_ne in Hi by done.
      by destruct (Hclash i u Hi' Hi).
    + rewrite lookup_insert_ne in Hi, Hj by done. eauto.
Qed.

Lemma user_delete_unique (id : string) :
  preserves unique_keyed (Prisma.user_delete id).
Proof.
  intros db [Hkeys Huniq].
  unfold Prisma.user_delete, Prisma.connect.
  destruct (users db !! id) as [row|] eqn:Hrow; [|by exists db].
  eexists. split; [reflexivity|].
  unfold unique_keyed, keys_consistent, emails_unique, references_intact. simpl. split.
  - intros i u Hi. apply lookup_delete_Some in Hi as [_ Hi]. by apply Hkeys.
  - intros i j u v Hi Hj.
    apply lookup_delete_Some in Hi as [_ Hi].
    apply lookup_delete_Some in Hj as [_ Hj]. eauto.
Qed.

(** X1. Started on a store whose user rows are filed under their own ids
    with pairwise different emails, every writing operation of
    [UsersService] and [AuthService] leaves such a store, whether it
    returns or throws: no sequence of calls produces two users with one
    email. *)
Theorem services_keep_emails_unique :
  (∀ dto now, preserves unique_keyed (UsersService.create dto now))
  ∧ (∀ id dto now, preserves unique_keyed (UsersService.update id dto now))
  ∧ (∀ id now, preserves unique_keyed (UsersService.remove id now))
  ∧ (∀ id, preserves unique_keyed (UsersService.hardDelete id))
  ∧ (∀ id active now,
       preserves unique_keyed (AuthService.updateUserStatus id active now)).
Proof.
  split; [|split; [|split; [|split]]].
  - intros dto now. apply user_create_unique.
  - intros id dto now. apply user_update_unique.
  - intros id now db Hdb. unfold UsersService.remove.
    rewrite discard_result_store. by apply user_update_unique.
  - intros id db Hdb. unfold UsersService.hardDelete.
    rewrite discard_result_store. by apply user_delete_unique.
  - intros id active now. apply user_update_unique.
Qed.

Lemma user_create_references (data : Prisma.UserCreateInput) (now : DateTime) :
  preserves references_intact (Prisma.user_create data now).
Proof.
  intros db [Hs Ha]. unfold Prisma.user_create, Prisma.connect.
  destruct (Prisma.by_email (Prisma.c_email data) db); [by exists db|].
  eexists. split; [reflexivity|].
  unfold unique_keyed, keys_consistent, emails_unique, references_intact. simpl.
  pose proof (cuid_fresh db) as Hfresh.
  split.
  - intros k s Hk. destruct (Hs k s Hk) as [u Hu].
    exists u. rewrite lookup_insert_ne; [done|]. congruence.
  - intros k a Hk. destruct (Ha k a Hk) as [u Hu].
    exists u. rewrite lookup_insert_ne; [done|]. congruence.
Qed.

Lemma user_update_references (id : string) (data : Prisma.UserUpdateInput)
    (now : DateTime) :
  preserves references_intact (Prisma.user_update id data now).
Proof.
  intros db [Hs Ha]. unfold Prisma.user_update, Prisma.connect.
  destruct (users db !! id) as [row|] eqn:Hrow; [|by exists db].
  destruct (match Prisma.u_email data with
            | Some e => Prisma.email_taken_by_other id e db
            | None => false
            end); [by exists db|].
  eexists. split; [reflexivity|].
  unfold unique_keyed, keys_consistent, emails_unique, references_intact. simpl. split.
  - intros k s Hk. destruct (decide (Session.userId s = id)) as [->|Hne].
    + rewrite lookup_insert_eq. eauto.
    + rewrite lookup_insert_ne by done. eauto.
  - intros k a Hk. destruct (decide (Account.userId a = id)) as [->|Hne].
    + rewrite lookup_insert_eq. eauto.
    + rewrite lookup_insert_ne by done. eauto.
Qed.

Lemma user_delete_references (id : string) :
  preserves references_intact (Prisma.user_delete id).
Proof.
  intros db [Hs Ha]. unfold Prisma.user_delete, Prisma.connect.
  destruct (users db !! id) as [row|] eqn:Hrow; [|by exists db].
  eexists. split; [reflexivity|].
  unfold unique_keyed, keys_consistent, emails_unique, references_intact. simpl. split.
  - intros k s Hk. apply map_lookup_filter_Some in Hk as [Hk Hne].
    simpl in Hne. rewrite lookup_delete_ne by done. eauto.
  - intros k a Hk. apply map_lookup_filter_Some in Hk as [Hk Hne].
    simpl in Hne. rewrite lookup_delete_ne by done. eauto.
Qed.

(** X2. Started on a store in which every session and every account
    belongs to an existing user, every writing operation of the services
    leaves such a store; in particular [hardDelete] leaves no session or
    account behind that points at the deleted user. *)
Theorem services_keep_references_intact :
  (∀ dto now, preserves references_intact (UsersService.create dto now))
  ∧ (∀ id dto now, preserves references_intact (UsersService.update id dto now))
  ∧ (∀ id now, preserves references_intact (UsersService.remove id now))
  ∧ (∀ id, preserves references_intact (UsersService.hardDelete id))
  ∧ (∀ id active now,
       preserves references_intact (AuthService.updateUserStatus id active now)).
Proof.
  split; [|split; [|split; [|split]]].
  - intros dto now. apply user_create_references.
  - intros id dto now. apply user_update_references.
  - intros id now db Hdb. unfold UsersService.remove.
    rewrite discard_result_store. by apply user_update_references.
  - intros id db Hdb. unfold UsersService.hardDelete.
    rewrite discard_result_store. by apply user_delete_references.
  - intros id active now. apply user_update_references.
Qed.

(** ** Hard delete *)

(** X3. [hardDelete] of an existing id removes that row and, by cascade,
    exactly the sessions and accounts of that user; every other user,
    session and account stays, and afterwards [findOne] and
    [getUserProfile] resolve to [null] for the id. *)
Theorem hardDelete_cascades (db : DB) (id : string) (row : User.t) :
  users db !! id = Some row →
  ∃ db',
    UsersService.hardDelete id (Reachable db) = (inr (), Reachable db')
    ∧ users db' !! id = None
    ∧ (∀ j, j ≠ id → users db' !! j = users db !! j)
    ∧ (∀ k s, sessions db' !! k = Some s ↔
              sessions db !! k = Some s ∧ Session.userId s ≠ id)
    ∧ (∀ k a, accounts db' !! k = Some a ↔
              accounts db !! k = Some a ∧ Account.userId a ≠ id)
    ∧ UsersService.findOne id (Reachable db') = (inr None, Reachable db')
    ∧ AuthService.getUserProfile id (Reachable db') = (inr None, Reachable db').
Proof.
  intros Hrow.
  unfold UsersService.hardDelete, bind, Prisma.user_delete, Prisma.connect.
  rewrite Hrow. eexists. split; [reflexivity|]. simpl.
  split; [apply lookup_delete_eq|].
  split; [intros j Hj; by apply lookup_delete_ne|].
  split; [intros k s; apply map_lookup_filter_Some|].
  split; [intros k a; apply map_lookup_filter_Some|].
  unfold UsersService.findOne, AuthService.getUserProfile,
    AuthService.user_findUnique_include, Prisma.user_findUnique,
    Prisma.connect. simpl.
  rewrite lookup_delete_eq. done.
Qed.

Lemma hardDelete_cascades_witness :
  ∃ db',
    UsersService.hardDelete "u1" (Reachable Fixtures.seeded)
    = (inr (), Reachable db')
    ∧ users db' !! "u1" = None
    ∧ (∀ j, j ≠ "u1" → users db' !! j = users Fixtures.seeded !! j)
    ∧ (∀ k s, sessions db' !! k = Some s ↔
              sessions Fixtures.seeded !! k = Some s ∧ Session.userId s ≠ "u1")
    ∧ (∀ k a, accounts db' !! k = Some a ↔
              accounts Fixtures.seeded !! k = Some a ∧ Account.userId a ≠ "u1")
    ∧ UsersService.findOne "u1" (Reachable db') = (inr None, Reachable db')
    ∧ AuthService.getUserProfile "u1" (Reachable db')
      = (inr None, Reachable db').
Proof.
  apply (hardDelete_cascades Fixtures.seeded "u1" Fixtures.U1). reflexivity.
Defined.

(** X4. Unlike the soft [remove], [hardDelete] is not repeatable: after
    it succeeded, a second [hardDelete] of the same id throws the
    record-not-found error and changes nothing. *)
Theorem hardDelete_twice_throws (db : DB) (id : string) (row : User.t) :
  users db !! id = Some row →
  ∃ db',
    UsersService.hardDelete id (Reachable db) = (inr (), Reachable db')
    ∧ UsersService.hardDelete id (Reachable db')
      = (inl (PrismaClientKnownRequestError "P2025"), Reachable db').
Proof.
  intros Hrow.
  unfold UsersService.hardDelete, bind, Prisma.user_delete, Prisma.connect.
  rewrite Hrow. eexists. split; [reflexivity|]. simpl.
  by rewrite lookup_delete_eq.
Qed.

Lemma hardDelete_twice_throws_witness :
  ∃ db',
    UsersService.hardDelete "u2" (Reachable Fixtures.seeded)
    = (inr (), Reachable db')
    ∧ UsersService.hardDelete "u2" (Reachable db')
      = (inl (PrismaClientKnownRequestError "P2025"), Reachable db').
Proof.
  apply (hardDelete_twice_throws Fixtures.seeded "u2" Fixtures.U2). reflexivity.
Defined.

(** ** Create, then look up *)

(** After a row with a new email went under a new key, the lookup by that
    email finds this row. *)
Lemma by_email_insert_fresh (db : DB) (row : User.t) (k : string) :
  users db !! k = None →
  Prisma.by_email (User.email row) db = None →
  Prisma.by_email (User.email row)
    {| users := <[k := row]> (users db);
       sessions := sessions db; accounts := accounts db |} = Some row.
Proof.
  intros Hk Hnone. unfold Prisma.by_email, Prisma.rows in *. simpl.
  apply head_None in Hnone.
  assert (Hperm : filter (λ u, User.email u = User.email row)
                    (map_to_list (<[k := row]> (users db))).*2
                  ≡ₚ [row]).
  { rewrite (map_to_list_insert (users db) k row Hk), fmap_cons.
    rewrite filter_cons_True by done. by rewrite Hnone. }
  apply Permutation_singleton_r in Hperm. by rewrite Hperm.
Qed.

Lemma create_success (db : DB) (dto : CreateUserDto.t) (now : DateTime)
    (u : User.t) (st' : Store) :
  UsersService.create dto now (Reachable db) = (inr u, st') →
  Prisma.by_email (CreateUserDto.email dto) db = None
  ∧ User.email u = CreateUserDto.email dto
  ∧ users db !! User.id u = None
  ∧ st' = Reachable {| users := <[User.id u := u]> (users db);
                       sessions := sessions db; accounts := accounts db |}.
Proof.
  unfold UsersService.create, Prisma.user_create, Prisma.connect. simpl.
  destruct (Prisma.by_email (CreateUserDto.email dto) db) eqn:Hmail;
    [discriminate|].
  intros Heq. injection Heq as <- <-. simpl.
  split; [done|]. split; [done|]. split; [apply cuid_fresh|done].
Qed.

(** X5. Whenever [create] returns a user, that user can be read back at
    once: [findByEmail] with the DTO's email and [findOne] with the new id
    both resolve to exactly the returned row. *)
Theorem create_then_lookup (db : DB) (dto : CreateUserDto.t) (now : DateTime)
    (u : User.t) (st' : Store) :
  UsersService.create dto now (Reachable db) = (inr u, st') →
  UsersService.findByEmail (CreateUserDto.email dto) st' = (inr (Some u), st')
  ∧ UsersService.findOne (User.id u) st' = (inr (Some u), st').
Proof.
  intros Hcreate.
  apply create_success in Hcreate as (Hnone & Hmail & Hfresh & ->).
  unfold UsersService.findByEmail, UsersService.findOne,
    Prisma.user_findUnique, Prisma.connect.
  rewrite <- Hmail in *.
  rewrite (by_email_insert_fresh db u (User.id u) Hfresh Hnone). simpl.
  by rewrite lookup_insert_eq.
Qed.

Lemma create_then_lookup_witness :
  ∃ u st',
    UsersService.create (CreateUserDto.mk (Some "Dee") "d@x.com" None None) 400
      (Reachable Fixtures.seeded) = (inr u, st')
    ∧ UsersService.findByEmail "d@x.com" st' = (inr (Some u), st')
    ∧ UsersService.findOne (User.id u) st' = (inr (Some u), st').
Proof.
  eexists _, _. split; [vm_compute; reflexivity|].
  apply (create_then_lookup Fixtures.seeded
           (CreateUserDto.mk (Some "Dee") "d@x.com" None None) 400).
  vm_compute. reflexivity.
Defined.

(** X6. After [create] returned a user, every further [create] with the
    same email, whatever its other fields and whenever it is made, throws
    the unique-constraint error and leaves the store as the first call
    left it. *)
Theorem create_same_email_twice (db : DB) (dto dto' : CreateUserDto.t)
    (now now' : DateTime) (u : User.t) (st' : Store) :
  UsersService.create dto now (Reachable db) = (inr u, st') →
  CreateUserDto.email dto' = CreateUserDto.email dto →
  UsersService.create dto' now' st'
  = (inl (PrismaClientKnownRequestError "P2002"), st').
Proof.
  intros Hcreate Hsame.
  apply create_success in Hcreate as (Hnone & Hmail & Hfresh & ->).
  unfold UsersService.create, Prisma.user_create, Prisma.connect. simpl.
  rewrite Hsame, <- Hmail in *.
  by rewrite (by_email_insert_fresh db u (User.id u) Hfresh Hnone).
Qed.

Lemma create_same_email_twice_witness :
  ∃ u st',
    UsersService.create (CreateUserDto.mk (Some "Dee") "d@x.com" None None) 400
      (Reachable Fixtures.seeded) = (inr u, st')
    ∧ UsersService.create (CreateUserDto.mk None "d@x.com" (Some true) None) 500 st'
      = (inl (PrismaClientKnownRequestError "P2002"), st').
Proof.
  eexists _, _. split; [vm_compute; reflexivity|].
  eapply (create_same_email_twice Fixtures.seeded
           (CreateUserDto.mk (Some "Dee") "d@x.com" None None)
           (CreateUserDto.mk None "d@x.com" (Some true) None) 400 500).
  - vm_compute. reflexivity.
  - reflexivity.
Defined.

(** ** Soft delete and the reads *)

Lemma findAll_result (db : DB) :
  ∃ l, UsersService.findAll (Reachable db) = (inr l, Reachable db)
       ∧ ∀ u, u ∈ l ↔ (∃ i, users db !! i = Some u) ∧ User.isActive u = true.
Proof.
  eexists. split; [reflexivity|]. intros u.
  rewrite merge_sort_Permutation, list_elem_of_filter, elem_of_rows.
  simpl. tauto.
Qed.

(** X7. The lookups apply no activity filter, the listing does: after a
    soft [remove] of an existing id, [findOne] still resolves to the row,
    now inactive and with its email kept, while [findAll] lists exactly
    the active rows filed under the other ids. *)
Theorem remove_hides_from_findAll_only (db : DB) (id : string)
    (now : DateTime) (row : User.t) :
  users db !! id = Some row →
  ∃ db' row' l',
    UsersService.remove id now (Reachable db) = (inr (), Reachable db')
    ∧ UsersService.findOne id (Reachable db') = (inr (Some row'), Reachable db')
    ∧ User.isActive row' = false
    ∧ User.email row' = User.email row
    ∧ UsersService.findAll (Reachable db') = (inr l', Reachable db')
    ∧ (∀ u, u ∈ l' ↔
            ∃ j, j ≠ id ∧ users db !! j = Some u ∧ User.isActive u = true).
Proof.
  intros Hrow.
  pose (row' := Prisma.apply_update UsersService.deactivate now row).
  pose (db' := {| users := <[id := row']> (users db);
                  sessions := sessions db; accounts := accounts db |}).
  destruct (findAll_result db') as (l' & Hall & Hmem).
  exists db', row', l'.
  split.
  { unfold UsersService.remove, bind.
    rewrite (user_update_keeps_email db id UsersService.deactivate now row
               Hrow eq_refl). reflexivity. }
  split.
  { unfold UsersService.findOne, Prisma.user_findUnique, Prisma.connect.
    simpl. by rewrite lookup_insert_eq. }
  split; [reflexivity|]. split; [reflexivity|]. split; [exact Hall|].
  intros u. rewrite Hmem. simpl. split.
  - intros [[j Hj] Hactive]. destruct (decide (j = id)) as [->|Hne].
    + rewrite lookup_insert_eq in Hj. injection Hj as <-. discriminate.
    + rewrite lookup_insert_ne in Hj by done. eauto.
  - intros (j & Hne & Hj & Hactive). split; [|done].
    exists j. by rewrite lookup_insert_ne.
Qed.

Lemma remove_hides_from_findAll_only_witness :
  ∃ db' row' l',
    UsersService.remove "u1" 400 (Reachable Fixtures.seeded)
    = (inr (), Reachable db')
    ∧ UsersService.findOne "u1" (Reachable db')
      = (inr (Some row'), Reachable db')
    ∧ User.isActive row' = false
    ∧ User.email row' = User.email Fixtures.U1
    ∧ UsersService.findAll (Reachable db') = (inr l', Reachable db')
    ∧ (∀ u, u ∈ l' ↔
            ∃ j, j ≠ "u1" ∧ users Fixtures.seeded !! j = Some u
                 ∧ User.isActive u = true).
Proof.
  apply (remove_hides_from_findAll_only Fixtures.seeded "u1" 400 Fixtures.U1).
  reflexivity.
Defined.

(** The seeded store is consistent. *)
Lemma seeded_consistent : consistent Fixtures.seeded.
Proof.
  assert (Hrows : ∀ i u, users Fixtures.seeded !! i = Some u →
            (i = "u1" ∧ u = Fixtures.U1) ∨ (i = "u2" ∧ u = Fixtures.U2)
            ∨ (i = "u3" ∧ u = Fixtures.U3)).
  { intros i u Hi. unfold Fixtures.seeded in Hi. simpl in Hi.
    apply lookup_insert_Some in Hi as [[<- <-] | [_ Hi]]; [auto|].
    apply lookup_insert_Some in Hi as [[<- <-] | [_ Hi]]; [auto|].
    apply lookup_insert_Some in Hi as [[<- <-] | [_ Hi]]; [auto|].
    by rewrite lookup_empty in Hi. }
  split; [|split; [|split]].
  - intros i u Hi.
    destruct (Hrows i u Hi) as [[-> ->] | [[-> ->] | [-> ->]]]; reflexivity.
  - intros i j u v Hi Hj Heq.
    destruct (Hrows i u Hi) as [[-> ->] | [[-> ->] | [-> ->]]];
      destruct (Hrows j v Hj) as [[-> ->] | [[-> ->] | [-> ->]]];
      first [reflexivity | discriminate Heq].
  - intros k s Hk. unfold Fixtures.seeded in Hk. simpl in Hk.
    apply lookup_insert_Some in Hk as [[<- <-] | [_ Hk]]; [by eexists|].
    apply lookup_insert_Some in Hk as [[<- <-] | [_ Hk]]; [by eexists|].
    by rewrite lookup_empty in Hk.
  - intros k a Hk. unfold Fixtures.seeded in Hk. simpl in Hk.
    apply lookup_insert_Some in Hk as [[<- <-] | [_ Hk]]; [by eexists|].
    by rewrite lookup_empty in Hk.
Qed.

Lemma services_keep_emails_unique_witness :
  ∃ db', (UsersService.update "u1"
            (UpdateUserDto.mk None (Some "z@x.com") None None) 400
            (Reachable Fixtures.seeded)).2 = Reachable db'
         ∧ unique_keyed db'.
Proof.
  destruct services_keep_emails_unique as (_ & Hupdate & _).
  apply Hupdate. split; apply seeded_consistent.
Defined.

Lemma services_keep_references_intact_witness :
  ∃ db', (UsersService.hardDelete "u1" (Reachable Fixtures.seeded)).2
         = Reachable db'
         ∧ references_intact db'.
Proof.
  destruct services_keep_references_intact as (_ & _ & _ & Hdelete & _).
  apply Hdelete. apply seeded_consistent.
Defined.

(** X8. On a store with pairwise different emails, [findByEmail] resolves
    to a row exactly when that row is stored and carries the email, and
    to [null] exactly when no stored row carries it; it never throws on a
    reachable store and never writes. *)
Theorem findByEmail_finds_the_row (db : DB) (e : string) :
  emails_unique db →
  (∀ u, UsersService.findByEmail e (Reachable db) = (inr (Some u), Reachable db)
        ↔ ∃ i, users db !! i = Some u ∧ User.email u = e)
  ∧ (UsersService.findByEmail e (Reachable db) = (inr None, Reachable db)
     ↔ ∀ i u, users db !! i = Some u → User.email u ≠ e).
Proof.
  intros Huniq.
  unfold UsersService.findByEmail, Prisma.user_findUnique, Prisma.connect.
  split.
  - intros u. split.
    + intros Heq. injection Heq as Hby.
      unfold Prisma.by_email in Hby. apply head_Some_elem_of in Hby.
      apply list_elem_of_filter in Hby as [He Hin].
      apply elem_of_rows in Hin as [i Hi]. eauto.
    + intros (i & Hi & He).
      destruct (Prisma.by_email e db) as [u'|] eqn:Hby.
      * pose proof Hby as Hby'. unfold Prisma.by_email in Hby'.
        apply head_Some_elem_of in Hby'.
        apply list_elem_of_filter in Hby' as [He' Hin].
        apply elem_of_rows in Hin as [i' Hi'].
        assert (i = i') by (apply (Huniq i i' u u'); congruence).
        subst i'. congruence.
      * apply by_email_None in Hby. by destruct (Hby i u Hi).
  - split.
    + intros Heq. injection Heq as Hby. by apply by_email_None in Hby.
    + intros Hnone. apply by_email_None in Hnone. by rewrite Hnone.
Qed.

Lemma findByEmail_finds_the_row_witness :
  UsersService.findByEmail "b@x.com" (Reachable Fixtures.seeded)
  = (inr (Some Fixtures.U2), Reachable Fixtures.seeded).
Proof.
  destruct (findByEmail_finds_the_row Fixtures.seeded "b@x.com"
              (proj1 (proj2 seeded_consistent))) as [Hsome _].
  apply Hsome. exists "u2". split; reflexivity.
Defined.

(** X9. On a store whose rows are filed under their own ids, [update] of
    an existing id throws the unique-constraint error, changing nothing,
    exactly when the DTO carries an email that a row under another id
    already has; in every other case it returns the updated row, which
    is the old row with the DTO's fields written over it, and stores it
    under the id. *)
Theorem update_email_conflict (db : DB) (id : string) (dto : UpdateUserDto.t)
    (now : DateTime) (row : User.t) :
  keys_consistent db →
  users db !! id = Some row →
  (UsersService.update id dto now (Reachable db)
   = (inl (PrismaClientKnownRequestError "P2002"), Reachable db)
   ↔ ∃ e j other, UpdateUserDto.email dto = Some e ∧ j ≠ id
                  ∧ users db !! j = Some other ∧ User.email other = e)
  ∧ ((∃ row', (UsersService.update id dto now (Reachable db)).1 = inr row')
     ↔ ¬ ∃ e j other, UpdateUserDto.email dto = Some e ∧ j ≠ id
                      ∧ users db !! j = Some other ∧ User.email other = e)
  ∧ ((¬ ∃ e j other, UpdateUserDto.email dto = Some e ∧ j ≠ id
                     ∧ users db !! j = Some other ∧ User.email other = e) →
     ∃ row',
       row' = {| User.id := User.id row;
                 User.name := match UpdateUserDto.name dto with
                              | Some n => Some n
                              | None => User.name row
                              end;
                 User.email := default (User.email row) (UpdateUserDto.email dto);
                 User.emailVerified :=
                   default (User.emailVerified row)
                     (UpdateUserDto.emailVerified dto);
                 User.createdAt := User.createdAt row;
                 User.updatedAt :=
                   match UpdateUserDto.name dto, UpdateUserDto.email dto,
                         UpdateUserDto.emailVerified dto,
                         UpdateUserDto.isActive dto with
                   | None, None, None, None => User.updatedAt row
                   | _, _, _, _ => now
                   end;
                 User.isActive :=
                   default (User.isActive row) (UpdateUserDto.isActive dto);
                 User.image := User.image row |}
       ∧ UsersService.update id dto now (Reachable db)
         = (inr row',
            Reachable {| users := <[id := row']> (users db);
                         sessions := sessions db;
                         accounts := accounts db |})).
Proof.
  intros Hkeys Hrow.
  assert (Hiff : (match Prisma.u_email (UsersService.update_data dto) with
                  | Some e => Prisma.email_taken_by_other id e db
                  | None => false
                  end) = true
                 ↔ ∃ e j other, UpdateUserDto.email dto = Some e ∧ j ≠ id
                     ∧ users db !! j = Some other ∧ User.email other = e).
  { simpl. split.
    - destruct (UpdateUserDto.email dto) as [e|]; [|discriminate].
      intros Htaken. apply email_taken in Htaken as (j & v & Hv & He & Hne).
      exists e, j, v. split; [done|]. split; [|done].
      intros ->. rewrite Hrow in Hv. injection Hv as <-.
      by apply Hkeys in Hrow.
    - intros (e & j & other & -> & Hne & Hother & He).
      unfold Prisma.email_taken_by_other. apply bool_decide_eq_true.
      apply Exists_exists. exists other. split; [apply elem_of_rows; eauto|].
      split; [done|]. apply Hkeys in Hother. congruence. }
  unfold UsersService.update, Prisma.user_update, Prisma.connect.
  rewrite Hrow.
  destruct (match Prisma.u_email (UsersService.update_data dto) with
            | Some e => Prisma.email_taken_by_other id e db
            | None => false
            end) eqn:Htaken.
  - apply proj1 in Hiff. specialize (Hiff eq_refl).
    split; [done|]. simpl. split; [split|].
    + intros [row' Hres]. discriminate Hres.
    + intros Hnot. by destruct Hnot.
    + intros Hnot. by destruct Hnot.
  - split.
    + split; [discriminate|]. intros H. apply Hiff in H. discriminate.
    + simpl. split; [split|].
      * intros _ H. apply Hiff in H. discriminate.
      * intros _. eexists. reflexivity.
      * intros _. eexists. split; [reflexivity|].
        destruct dto as [[n|] [e|] [v|] [a|]]; reflexivity.
Qed.

(** An update that sets nothing returns the row as it is stored. *)
Example update_nothing :
  UsersService.update "u1" (UpdateUserDto.mk None None None None) 400
    (Reachable Fixtures.seeded)
  = (inr Fixtures.U1, Reachable Fixtures.seeded).
Proof. vm_compute. reflexivity. Qed.

Lemma update_email_conflict_witness :
  UsersService.update "u1" (UpdateUserDto.mk None (Some "b@x.com") None None) 400
    (Reachable Fixtures.seeded)
  = (inl (PrismaClientKnownRequestError "P2002"), Reachable Fixtures.seeded).
Proof.
  destruct (update_email_conflict Fixtures.seeded "u1"
              (UpdateUserDto.mk None (Some "b@x.com") None None) 400
              Fixtures.U1 (proj1 seeded_consistent) eq_refl) as [Hthrows _].
  apply Hthrows. exists "b@x.com", "u2", Fixtures.U2.
  split; [reflexivity|]. split; [discriminate|]. split; reflexivity.
Defined.

(** ** AuthService.updateUserStatus *)

(** X10. [AuthService.updateUserStatus(id, false)] and
    [UsersService.remove(id)] are interchangeable: on every store, at
    every time, they leave the same store and throw the same value, and
    one returns exactly when the other does. *)
Theorem updateUserStatus_false_is_remove (id : string) (now : DateTime)
    (st : Store) :
  (AuthService.updateUserStatus id false now st).2
  = (UsersService.remove id now st).2
  ∧ (∀ e, (AuthService.updateUserStatus id false now st).1 = inl e
          ↔ (UsersService.remove id now st).1 = inl e)
  ∧ ((∃ u, (AuthService.updateUserStatus id false now st).1 = inr u)
     ↔ (UsersService.remove id now st).1 = inr ()).
Proof.
  unfold UsersService.remove, AuthService.updateUserStatus, bind, ret.
  change (AuthService.status_data false) with UsersService.deactivate.
  destruct (Prisma.user_update id UsersService.deactivate now st)
    as [[e|u] st']; simpl.
  - split; [done|]. split; [intros e0; split; congruence|].
    split; [intros [u Hu]|intros Hu]; discriminate Hu.
  - split; [done|]. split; [intros e; split; intros He; discriminate He|].
    split; eauto.
Qed.

(** X11. A soft delete can be undone: after [remove] of an existing id,
    [updateUserStatus(id, true)] returns the row with [isActive = true],
    every other column but [updatedAt] as it was before the removal, and
    all other rows, the sessions and the accounts are as before. *)
Theorem remove_then_reactivate (db : DB) (id : string) (now1 now2 : DateTime)
    (row : User.t) :
  users db !! id = Some row →
  ∃ db1 db2 row2,
    UsersService.remove id now1 (Reachable db) = (inr (), Reachable db1)
    ∧ AuthService.updateUserStatus id true now2 (Reachable db1)
      = (inr row2, Reachable db2)
    ∧ row2 = {| User.id := User.id row;
                User.name := User.name row;
                User.email := User.email row;
                User.emailVerified := User.emailVerified row;
                User.createdAt := User.createdAt row;
                User.updatedAt := now2;
                User.isActive := true;
                User.image := User.image row |}
    ∧ users db2 !! id = Some row2
    ∧ (∀ j, j ≠ id → users db2 !! j = users db !! j)
    ∧ sessions db2 = sessions db
    ∧ accounts db2 = accounts db.
Proof.
  intros Hrow.
  pose (row1 := Prisma.apply_update UsersService.deactivate now1 row).
  pose (db1 := {| users := <[id := row1]> (users db);
                  sessions := sessions db; accounts := accounts db |}).
  assert (Hrow1 : users db1 !! id = Some row1) by apply lookup_insert_eq.
  exists db1. eexists _, _. split.
  { unfold UsersService.remove, bind.
    rewrite (user_update_keeps_email db id UsersService.deactivate now1 row
               Hrow eq_refl). reflexivity. }
  split.
  { unfold AuthService.updateUserStatus.
    rewrite (user_update_keeps_email db1 id (AuthService.status_data true)
               now2 row1 Hrow1 eq_refl). reflexivity. }
  split; [reflexivity|]. simpl.
  split; [apply lookup_insert_eq|].
  split; [|done].
  intros j Hj. by rewrite !lookup_insert_ne.
Qed.

Lemma remove_then_reactivate_witness :
  ∃ db1 db2 row2,
    UsersService.remove "u1" 400 (Reachable Fixtures.seeded)
    = (inr (), Reachable db1)
    ∧ AuthService.updateUserStatus "u1" true 500 (Reachable db1)
      = (inr row2, Reachable db2)
    ∧ row2 = {| User.id := "u1";
                User.name := Some "Ann";
                User.email := "a@x.com";
                User.emailVerified := true;
                User.createdAt := 100;
                User.updatedAt := 500;
                User.isActive := true;
                User.image := None |}
    ∧ users db2 !! "u1" = Some row2
    ∧ (∀ j, j ≠ "u1" → users db2 !! j = users Fixtures.seeded !! j)
    ∧ sessions db2 = sessions Fixtures.seeded
    ∧ accounts db2 = accounts Fixtures.seeded.
Proof.
  apply (remove_then_reactivate Fixtures.seeded "u1" 400 500 Fixtures.U1).
  reflexivity.
Defined.

(** ** The guard and the services together *)

(** What the guard does with a session the provider resolved, on a
    reachable store. *)
Lemma canActivate_resolved (auth : AuthProvider) (req : Request) (db : DB)
    (r : SessionResult) (s : Session.t) :
  api_getSession auth (headers req) = inr (Some r) →
  result_session r = Some s →
  AuthGuard.canActivate auth req (Reachable db)
  = (if AuthGuard.missing_or_inactive (users db !! Session.userId s)
     then inl authentication_failed
     else inr (true, AuthGuard.attach req (result_user r) s),
     Reachable db).
Proof.
  intros Hget Hs.
  unfold AuthGuard.canActivate, try_catch, AuthGuard.attempt, bind, await.
  rewrite Hget. simpl. rewrite Hs. simpl.
  by destruct (AuthGuard.missing_or_inactive (users db !! Session.userId s)).
Qed.

(** X12. Deleting a user locks out the sessions that are still alive:
    when the provider keeps resolving a request to a session of an
    existing user, the guard rejects that request after a soft [remove]
    of the user, and after a [hardDelete] of the user. *)
Theorem deleted_user_is_locked_out (auth : AuthProvider) (req : Request)
    (db : DB) (r : SessionResult) (s : Session.t) (row : User.t)
    (now : DateTime) :
  api_getSession auth (headers req) = inr (Some r) →
  result_session r = Some s →
  users db !! Session.userId s = Some row →
  (∃ db', UsersService.remove (Session.userId s) now (Reachable db)
          = (inr (), Reachable db')
          ∧ AuthGuard.canActivate auth req (Reachable db')
            = (inl (UnauthorizedException "Authentication failed"),
               Reachable db'))
  ∧ (∃ db', UsersService.hardDelete (Session.userId s) (Reachable db)
            = (inr (), Reachable db')
            ∧ AuthGuard.canActivate auth req (Reachable db')
              = (inl (UnauthorizedException "Authentication failed"),
                 Reachable db')).
Proof.
  intros Hget Hs Hrow. split.
  - eexists. split.
    { unfold UsersService.remove, bind.
      rewrite (user_update_keeps_email db _ UsersService.deactivate now row
                 Hrow eq_refl). reflexivity. }
    rewrite (canActivate_resolved auth req _ r s Hget Hs). simpl.
    by rewrite lookup_insert_eq.
  - eexists. split.
    { unfold UsersService.hardDelete, bind, Prisma.user_delete, Prisma.connect.
      rewrite Hrow. reflexivity. }
    rewrite (canActivate_resolved auth req _ r s Hget Hs). simpl.
    by rewrite lookup_delete_eq.
Qed.

Lemma deleted_user_is_locked_out_witness :
  (∃ db', UsersService.remove "u1" 400 (Reachable Fixtures.seeded)
          = (inr (), Reachable db')
          ∧ AuthGuard.canActivate
              (Fixtures.resolving
                 (Some (mkSessionResult (Some Fixtures.S1) (Some Fixtures.AU1))))
              (Fixtures.request_to GET "/api/users/me") (Reachable db')
            = (inl (UnauthorizedException "Authentication failed"),
               Reachable db'))
  ∧ (∃ db', UsersService.hardDelete "u1" (Reachable Fixtures.seeded)
            = (inr (), Reachable db')
            ∧ AuthGuard.canActivate
                (Fixtures.resolving
                   (Some (mkSessionResult (Some Fixtures.S1) (Some Fixtures.AU1))))
                (Fixtures.request_to GET "/api/users/me") (Reachable db')
              = (inl (UnauthorizedException "Authentication failed"),
                 Reachable db')).
Proof.
  apply (deleted_user_is_locked_out
           (Fixtures.resolving
              (Some (mkSessionResult (Some Fixtures.S1) (Some Fixtures.AU1))))
           (Fixtures.request_to GET "/api/users/me") Fixtures.seeded
           (mkSessionResult (Some Fixtures.S1) (Some Fixtures.AU1))
           Fixtures.S1 Fixtures.U1 400);
    reflexivity.
Defined.

(** X13. Reactivation readmits: when the provider resolves a request to
    a session of an existing user, then after
    [updateUserStatus(userId, true)] the guard lets the request through,
    with the provider's user and the session attached, whatever the
    user's status was before. *)
Theorem reactivated_user_is_admitted (auth : AuthProvider) (req : Request)
    (db : DB) (r : SessionResult) (s : Session.t) (row : User.t)
    (now : DateTime) :
  api_getSession auth (headers req) = inr (Some r) →
  result_session r = Some s →
  users db !! Session.userId s = Some row →
  ∃ row' db',
    AuthService.updateUserStatus (Session.userId s) true now (Reachable db)
    = (inr row', Reachable db')
    ∧ AuthGuard.canActivate auth req (Reachable db')
      = (inr (true, AuthGuard.attach req (result_user r) s), Reachable db').
Proof.
  intros Hget Hs Hrow. eexists _, _. split.
  { unfold AuthService.updateUserStatus.
    rewrite (user_update_keeps_email db _ (AuthService.status_data true) now
               row Hrow eq_refl). reflexivity. }
  rewrite (canActivate_resolved auth req _ r s Hget Hs). simpl.
  by rewrite lookup_insert_eq.
Qed.

Lemma reactivated_user_is_admitted_witness :
  ∃ row' db',
    AuthService.updateUserStatus "u2" true 400 (Reachable Fixtures.seeded)
    = (inr row', Reachable db')
    ∧ AuthGuard.canActivate
        (Fixtures.resolving (Some (mkSessionResult (Some Fixtures.S2) (Some Fixtures.AU2))))
        (Fixtures.request_to GET "/api/users") (Reachable db')
      = (inr (true,
              AuthGuard.attach (Fixtures.request_to GET "/api/users")
                (Some Fixtures.AU2) Fixtures.S2),
         Reachable db').
Proof.
  apply (reactivated_user_is_admitted
           (Fixtures.resolving (Some (mkSessionResult (Some Fixtures.S2) (Some Fixtures.AU2))))
           (Fixtures.request_to GET "/api/users") Fixtures.seeded
           (mkSessionResult (Some Fixtures.S2) (Some Fixtures.AU2)) Fixtures.S2 Fixtures.U2 400);
    reflexivity.
Defined.

(** X14. Whenever the guard resolves, it resolves to [true], never to
    [false]; the session was valid; the store is as before; and the
    request it hands on differs from the incoming one in [user] and
    [session] only, which are the provider's user object and session. *)
Theorem guard_admits_only_valid (auth : AuthProvider) (req : Request)
    (st : Store) (b : bool) (req' : Request) :
  (AuthGuard.canActivate auth req st).1 = inr (b, req') →
  b = true
  ∧ (AuthGuard.canActivate auth req st).2 = st
  ∧ ∃ r s, valid_session auth req st r s
           ∧ user req' = result_user r
           ∧ session req' = Some s
           ∧ (method req', baseUrl req', url req', headers req', rawBody req',
              body req')
             = (method req, baseUrl req, url req, headers req, rawBody req,
                body req).
Proof.
  intros Hres.
  destruct (canActivate_cases auth req st)
    as [[Hrej _] | (r & s & Hvalid & Hok)].
  - rewrite Hrej in Hres. discriminate Hres.
  - rewrite Hok in *. simpl in Hres. injection Hres as <- <-.
    split; [done|]. split; [done|]. exists r, s. done.
Qed.

Lemma guard_admits_only_valid_witness :
  ∃ r s, valid_session
           (Fixtures.resolving
              (Some (mkSessionResult (Some Fixtures.S1) (Some Fixtures.AU1))))
           (Fixtures.request_to GET "/api/users") (Reachable Fixtures.seeded) r s
         ∧ result_user r = Some Fixtures.AU1
         ∧ s = Fixtures.S1.
Proof.
  destruct (guard_admits_only_valid
              (Fixtures.resolving
                 (Some (mkSessionResult (Some Fixtures.S1) (Some Fixtures.AU1))))
              (Fixtures.request_to GET "/api/users") (Reachable Fixtures.seeded)
              true
              (AuthGuard.attach (Fixtures.request_to GET "/api/users")
                 (Some Fixtures.AU1) Fixtures.S1)
              eq_refl)
    as (_ & _ & r & s & Hvalid & Huser & Hsession & _).
  exists r, s. split; [exact Hvalid|]. simpl in Huser, Hsession.
  split; congruence.
Defined.

(** X15. Of a resolved session the guard reads the [userId] and nothing
    else: two requests whose sessions name the same user are both
    admitted or both rejected on the same store, whatever the sessions'
    expiry times, tokens or other fields and whatever user objects the
    provider returned with them. *)
Theorem guard_reads_only_userId (auth1 auth2 : AuthProvider)
    (req1 req2 : Request) (db : DB) (r1 r2 : SessionResult)
    (s1 s2 : Session.t) :
  api_getSession auth1 (headers req1) = inr (Some r1) →
  result_session r1 = Some s1 →
  api_getSession auth2 (headers req2) = inr (Some r2) →
  result_session r2 = Some s2 →
  Session.userId s1 = Session.userId s2 →
  (∃ e, (AuthGuard.canActivate auth1 req1 (Reachable db)).1 = inl e)
  ↔ (∃ e, (AuthGuard.canActivate auth2 req2 (Reachable db)).1 = inl e).
Proof.
  intros Hget1 Hs1 Hget2 Hs2 Hsame.
  rewrite (canActivate_resolved auth1 req1 db r1 s1 Hget1 Hs1).
  rewrite (canActivate_resolved auth2 req2 db r2 s2 Hget2 Hs2).
  rewrite Hsame.
  destruct (AuthGuard.missing_or_inactive (users db !! Session.userId s2));
    simpl; split; intros [e He]; first [discriminate He | by exists e].
Qed.

(** A session that expired long ago is admitted like a fresh one. *)
Lemma guard_reads_only_userId_witness :
  (∃ e, (AuthGuard.canActivate
           (Fixtures.resolving
              (Some (mkSessionResult (Some Fixtures.S1) (Some Fixtures.AU1))))
           (Fixtures.request_to GET "/api/users")
           (Reachable Fixtures.seeded)).1 = inl e)
  ↔ (∃ e, (AuthGuard.canActivate
             (Fixtures.resolving
                (Some (mkSessionResult
                         (Some (Session.mk "old" 0 "stale" "u1" 0 0 None None))
                         (Some Fixtures.AU1))))
             (Fixtures.request_to DELETE "/api/users/u3")
             (Reachable Fixtures.seeded)).1 = inl e).
Proof.
  apply (guard_reads_only_userId
           (Fixtures.resolving
              (Some (mkSessionResult (Some Fixtures.S1) (Some Fixtures.AU1))))
           (Fixtures.resolving
              (Some (mkSessionResult
                       (Some (Session.mk "old" 0 "stale" "u1" 0 0 None None))
                       (Some Fixtures.AU1))))
           (Fixtures.request_to GET "/api/users")
           (Fixtures.request_to DELETE "/api/users/u3")
           Fixtures.seeded
           (mkSessionResult (Some Fixtures.S1) (Some Fixtures.AU1))
           (mkSessionResult
              (Some (Session.mk "old" 0 "stale" "u1" 0 0 None None))
              (Some Fixtures.AU1))
           Fixtures.S1 (Session.mk "old" 0 "stale" "u1" 0 0 None None));
    reflexivity.
Defined.

(** X16. A store that cannot be reached shows differently on the two
    sides of the guard: every operation of [UsersService] and of
    [AuthService] ([onUserRegistered], which then prints nothing,
    [getUserProfile] and [updateUserStatus]) throws the client's
    initialization error, which is answered with status 500, while the
    guard turns the same outage into the 401 authentication failure, for
    every provider and request. *)
Theorem store_outage_surfaces (auth : AuthProvider) (req : Request) :
  AuthGuard.canActivate auth req Unreachable
  = (inl (UnauthorizedException "Authentication failed"), Unreachable)
  ∧ (∀ dto now, UsersService.create dto now Unreachable
                = (inl PrismaClientInitializationError, Unreachable))
  ∧ UsersService.findAll Unreachable
    = (inl PrismaClientInitializationError, Unreachable)
  ∧ (∀ id, UsersService.findOne id Unreachable
           = (inl PrismaClientInitializationError, Unreachable))
  ∧ (∀ e, UsersService.findByEmail e Unreachable
          = (inl PrismaClientInitializationError, Unreachable))
  ∧ (∀ id dto now, UsersService.update id dto now Unreachable
                   = (inl PrismaClientInitializationError, Unreachable))
  ∧ (∀ id now, UsersService.remove id now Unreachable
               = (inl PrismaClientInitializationError, Unreachable))
  ∧ (∀ id, UsersService.hardDelete id Unreachable
           = (inl PrismaClientInitializationError, Unreachable))
  ∧ (∀ id, AuthService.onUserRegistered id Unreachable
           = (inl PrismaClientInitializationError, Unreachable))
  ∧ (∀ id, AuthService.getUserProfile id Unreachable
           = (inl PrismaClientInitializationError, Unreachable))
  ∧ (∀ id b now, AuthService.updateUserStatus id b now Unreachable
                 = (inl PrismaClientInitializationError, Unreachable))
  ∧ response_status PrismaClientInitializationError = 500
  ∧ response_status (UnauthorizedException "Authentication failed") = 401.
Proof.
  split.
  - destruct (canActivate_cases auth req Unreachable)
      as [[Hrej _] | (r & s & (_ & _ & db & u & Hst & _) & _)];
      [exact Hrej | discriminate Hst].
  - repeat split.
Qed.

(** X25. [onUserRegistered] is a read: it leaves the store as it was and
    returns what [findOne] returns for the id.  It prints exactly one
    line, naming the email of the row, when the row exists, and nothing
    when there is no row or the lookup throws. *)
Theorem onUserRegistered_reports (userId : string) (st : Store) :
  (AuthService.onUserRegistered userId st).2 = st
  ∧ match (UsersService.findOne userId st).1 with
    | inl e => (AuthService.onUserRegistered userId st).1 = inl e
    | inr None => (AuthService.onUserRegistered userId st).1 = inr ([], None)
    | inr (Some u) =>
        (AuthService.onUserRegistered userId st).1
        = inr (["User " +:+ User.email u +:+ " has been registered"], Some u)
    end.
Proof.
  destruct st as [db|]; [|split; reflexivity].
  unfold AuthService.onUserRegistered, UsersService.findOne, bind; simpl.
  destruct (users db !! userId); split; reflexivity.
Qed.

(** ** The profile endpoint *)

Lemma elem_of_routes (r : Router.Route) :
  r ∈ Router.routes →
  (Router.guards r = [Router.AuthGuard]
   ∧ Router.handler r ∈ [Router.UsersController_findAll;
                         Router.UsersController_getCurrentUser;
                         Router.UsersController_findOne;
                         Router.UsersController_update;
                         Router.UsersController_remove])
  ∨ (Router.guards r = []
     ∧ Router.handler r ∈ [Router.AppController_getHello;
                           Router.AppController_getHealth;
                           Router.UsersController_create;
                           Router.AuthController_handleAuth]).
Proof.
  intros Hin. vm_compute in Hin.
  repeat (apply elem_of_cons in Hin as [-> | Hin];
          [simpl; first [left; split; [reflexivity|]; set_solver
                        | right; split; [reflexivity|]; set_solver]|]).
  by apply elem_of_nil in Hin.
Qed.

Lemma first_match_elem_of (decode : string → option string)
    (rs : list Router.Route) (m : Method) (p : list string) (r : Router.Route) :
  Router.first_match decode rs m p = inr (Some r) → r ∈ rs.
Proof.
  induction rs as [|r0 rs IH]; simpl; [discriminate|].
  destruct (Router.path_matches (Router.path r0) p); [|right; auto].
  destruct (Router.undecodable decode (Router.captures (Router.path r0) p));
    [discriminate|].
  destruct (Router.verb_matches (Router.verb r0) m); [|right; auto].
  intros [= ->]. left.
Qed.

Lemma dispatch_elem_of (decode : string → option string) (req : Request)
    (r : Router.Route) :
  Router.dispatch decode req = inr (Some r) → r ∈ Router.routes.
Proof.
  unfold Router.dispatch. destruct (Router.request_path req); [|discriminate].
  apply first_match_elem_of.
Qed.

(** X17. Whenever a request reaches [getCurrentUser], the profile it
    returns carries the user object the provider resolved for the
    request's headers, not a row of the store and not a [user] the
    request brought along; the message is fixed. *)
Theorem getCurrentUser_shows_provider_user
    (decode : string → option string)
    (pipe : Router.Handler → Request → option Thrown)
    (auth : AuthProvider) (req req' : Request) (st st' : Store) :
  Router.handle decode pipe auth req st
  = (inr (Router.UsersController_getCurrentUser, req'), st') →
  ∃ r, api_getSession auth (headers req) = inr (Some r)
       ∧ UsersController.getCurrentUser req'
         = {| UsersController.message := "Authenticated user profile";
              UsersController.current_user := result_user r |}.
Proof.
  unfold Router.handle. intros Hh.
  destruct (Router.dispatch decode req) as [e|[route|]] eqn:Hd;
    [discriminate Hh | | discriminate Hh].
  apply dispatch_elem_of in Hd.
  unfold Router.execute, bind in Hh.
  destruct (elem_of_routes route Hd) as [[Hg Hin] | [Hg Hin]]; rewrite Hg in Hh.
  - simpl in Hh. unfold bind in Hh.
    destruct (canActivate_cases auth req st)
      as [[Hrej _] | (r & s & (Hget & _) & Hok)].
    + rewrite Hrej in Hh. discriminate Hh.
    + rewrite Hok in Hh. simpl in Hh.
      destruct (pipe (Router.handler route)
                  (AuthGuard.attach req (result_user r) s));
        [discriminate Hh|].
      injection Hh as _ <- _.
      exists r. split; [exact Hget | reflexivity].
  - simpl in Hh.
    destruct (pipe (Router.handler route) req); [discriminate Hh|].
    injection Hh as Hhandler _ _.
    rewrite Hhandler in Hin.
    repeat (apply elem_of_cons in Hin as [Hin | Hin]; [discriminate Hin|]).
    by apply elem_of_nil in Hin.
Qed.

Lemma getCurrentUser_shows_provider_user_witness :
  ∃ r, api_getSession
         (Fixtures.resolving
            (Some (mkSessionResult (Some Fixtures.S1) (Some Fixtures.AU1))))
         (headers (Fixtures.request_to GET "/api/users/me")) = inr (Some r)
       ∧ UsersController.getCurrentUser
           (AuthGuard.attach (Fixtures.request_to GET "/api/users/me")
              (Some Fixtures.AU1) Fixtures.S1)
         = {| UsersController.message := "Authenticated user profile";
              UsersController.current_user := result_user r |}.
Proof.
  apply (getCurrentUser_shows_provider_user Fixtures.unescaped
           Fixtures.no_arguments
           (Fixtures.resolving
              (Some (mkSessionResult (Some Fixtures.S1) (Some Fixtures.AU1))))
           (Fixtures.request_to GET "/api/users/me")
           (AuthGuard.attach (Fixtures.request_to GET "/api/users/me")
              (Some Fixtures.AU1) Fixtures.S1)
           (Reachable Fixtures.seeded) (Reachable Fixtures.seeded)).
  vm_compute. reflexivity.
Defined.

(** ** Dispatch *)

(** X20. Without a valid session a request reaches no handler but
    [getHello], [getHealth], [create] and [handleAuth], and reaches those
    unchanged; the listing, the profile, the lookup by id, the update and
    the removal are out of reach, for every method and path. *)
Theorem without_session_reachable
    (decode : string → option string)
    (pipe : Router.Handler → Request → option Thrown)
    (auth : AuthProvider) (req req' : Request)
    (st : Store) (h : Router.Handler) :
  (∀ r s, ¬ valid_session auth req st r s) →
  (Router.handle decode pipe auth req st).1 = inr (h, req') →
  h ∈ [Router.AppController_getHello; Router.AppController_getHealth;
       Router.UsersController_create; Router.AuthController_handleAuth]
  ∧ req' = req.
Proof.
  intros Hinvalid. unfold Router.handle.
  destruct (Router.dispatch decode req) as [e|[route|]] eqn:Hd;
    [discriminate | | discriminate].
  apply dispatch_elem_of in Hd.
  destruct (elem_of_routes route Hd) as [[Hg _] | [Hg Hin]].
  - rewrite execute_guarded; [discriminate | by rewrite Hg |].
    destruct (canActivate_cases auth req st)
      as [[Hrej _] | (r & s & Hvalid & _)]; [exact Hrej|].
    by destruct (Hinvalid r s).
  - unfold Router.execute, bind. rewrite Hg. simpl.
    destruct (pipe (Router.handler route) req); [discriminate|].
    simpl. intros Heq. injection Heq as <- <-. done.
Qed.

(** The health check, asked for without any session. *)
Lemma without_session_reachable_witness :
  (Router.handle Fixtures.unescaped Fixtures.no_arguments
     (Fixtures.resolving None) (Fixtures.request_to GET "/api/health")
     (Reachable Fixtures.seeded)).1
  = inr (Router.AppController_getHealth, Fixtures.request_to GET "/api/health")
  ∧ Router.AppController_getHealth
    ∈ [Router.AppController_getHello; Router.AppController_getHealth;
       Router.UsersController_create; Router.AuthController_handleAuth].
Proof.
  split; [vm_compute; reflexivity|].
  apply (without_session_reachable Fixtures.unescaped Fixtures.no_arguments
           (Fixtures.resolving None)
           (Fixtures.request_to GET "/api/health")
           (Fixtures.request_to GET "/api/health")
           (Reachable Fixtures.seeded) Router.AppController_getHealth).
  - intros r s (Hget & _). discriminate Hget.
  - vm_compute. reflexivity.
Defined.

(** X18. Among [GET] and [HEAD] requests for [/api/users/x], the segment
    ["me"], in any letter case, is taken by [getCurrentUser], which is
    declared before [:id]; an empty segment is the trailing slash of the
    listing; every other segment goes to [findOne] when it decodes and is
    answered with a bad-request failure when it does not. *)
Theorem users_me_shadows_id (decode : string → option string) (req : Request)
    (x : string) :
  (method req = GET ∨ method req = HEAD) →
  Router.request_path req = Some ["api"; "users"; x] →
  handler_of (Router.dispatch decode req)
  = if Router.same_text "me" x
    then inr (Some Router.UsersController_getCurrentUser)
    else if decide (x = "") then inr (Some Router.UsersController_findAll)
    else match decode x with
         | Some _ => inr (Some Router.UsersController_findOne)
         | None => inl (HttpException 400
                          ("Failed to decode param '" +:+ x +:+ "'"))
         end.
Proof.
  intros Hm Hp. unfold Router.dispatch. rewrite Hp.
  destruct (decide (x = "")) as [-> | Hne].
  { destruct Hm as [-> | ->]; vm_compute; reflexivity. }
  assert (Hb : bool_decide (x = "") = false) by by apply bool_decide_eq_false.
  destruct (Router.same_text "me" x) eqn:Hme.
  - destruct Hm as [-> | ->];
      cbn -[Router.same_text bool_decide]; unfold Router.globalPrefix;
      change (Router.same_text "api" "api") with true;
      change (Router.same_text "users" "users") with true;
      rewrite ?Hb, ?Hme; cbn -[Router.same_text bool_decide];
      rewrite ?Hb, ?Hme; reflexivity.
  - destruct (decode x) as [y|] eqn:Hd;
      destruct Hm as [-> | ->];
      cbn -[Router.same_text bool_decide]; unfold Router.globalPrefix;
      change (Router.same_text "api" "api") with true;
      change (Router.same_text "users" "users") with true;
      change (Router.same_text "health" "users") with false;
      rewrite ?Hb, ?Hme; cbn -[Router.same_text bool_decide];
      rewrite ?Hb, ?Hme, ?Hd; cbn; rewrite ?Hb; reflexivity.
Qed.

Lemma users_me_shadows_id_witness :
  handler_of (Router.dispatch Fixtures.unescaped
                (Fixtures.request_to GET "/api/users/Me"))
  = inr (Some Router.UsersController_getCurrentUser).
Proof.
  apply (users_me_shadows_id Fixtures.unescaped
           (Fixtures.request_to GET "/api/users/Me") "Me").
  - left. reflexivity.
  - vm_compute. reflexivity.
Defined.



(** ** What the middleware hands on *)

(** X21. The middleware adds no failure of its own and hides none: [next]
    receives an error exactly when the request is outside the
    authentication prefix and one of the two parsers reported that very
    error, the JSON parser on the incoming request or the URL-encoded
    parser on what the JSON parser passed on; otherwise [next] receives
    the request as the last parser invoked left it. *)
Theorem use_reports_parser_errors
    (express_json : Z → Request → option Thrown * Request)
    (express_urlencoded : bool → Z → Request → option Thrown * Request)
    (req : Request) :
  (∀ e, RawBodyMiddleware.err
          (RawBodyMiddleware.use express_json express_urlencoded req) = Some e
        ↔ RawBodyMiddleware.is_auth_route req = false
          ∧ ((express_json 5242880 req).1 = Some e
             ∨ ((express_json 5242880 req).1 = None
                ∧ (express_urlencoded true 5242880
                     (express_json 5242880 req).2).1 = Some e)))
  ∧ (RawBodyMiddleware.err
       (RawBodyMiddleware.use express_json express_urlencoded req) = None
     ↔ (RawBodyMiddleware.is_auth_route req = true
        ∧ RawBodyMiddleware.request
            (RawBodyMiddleware.use express_json express_urlencoded req) = req)
       ∨ (RawBodyMiddleware.is_auth_route req = false
          ∧ (express_json 5242880 req).1 = None
          ∧ express_urlencoded true 5242880 (express_json 5242880 req).2
            = (None,
               RawBodyMiddleware.request
                 (RawBodyMiddleware.use express_json express_urlencoded req)))).
Proof.
  unfold RawBodyMiddleware.use.
  change RawBodyMiddleware.limit_5mb with 5242880.
  destruct (RawBodyMiddleware.is_auth_route req); simpl.
  - split.
    + intros e. split; [discriminate | intros [? _]; discriminate].
    + split; [left; done | done].
  - destruct (express_json 5242880 req) as [[e1|] req1]; simpl.
    + split.
      * intros e. split.
        -- intros [= <-]. split; [done|]. by left.
        -- intros [_ [[= <-] | [Hj _]]]; [done | discriminate Hj].
      * split; [discriminate|].
        intros [[? _] | (_ & Hj & _)]; discriminate.
    + destruct (express_urlencoded true 5242880 req1) as [e2 req2] eqn:Hu;
        simpl.
      split.
      * intros e. split.
        -- intros ->. split; [done|]. right. done.
        -- intros [_ [Hj | [_ Hu']]]; [discriminate Hj | done].
      * split.
        -- intros ->. right. done.
        -- intros [[? _] | (_ & _ & [= ->])]; [discriminate | done].
Qed.

(** ** The configuration factory *)

(** X22. Two switches do not follow their variables: [cors.enabled] is
    [true] for every environment, whatever [CORS_ENABLED] says, and
    [swagger.enabled] is [false] only when [SWAGGER_ENABLED] is exactly
    the text ["false"]. *)
Theorem configuration_switches (parseInt : option string → Z → Configuration.JsNumber)
    (env : gmap string string) :
  Configuration.cors_enabled (Configuration.configuration parseInt env) = true
  ∧ (Configuration.swagger_enabled (Configuration.configuration parseInt env)
     = false
     ↔ env !! "SWAGGER_ENABLED" = Some "false").
Proof.
  simpl. split; [apply orb_true_r|].
  rewrite negb_false_iff. apply bool_decide_eq_true.
Qed.

Lemma string_or_not_blank (x : option string) (d : string) :
  d ≠ "" → Configuration.string_or x d ≠ "".
Proof.
  intros Hd. unfold Configuration.string_or.
  destruct x as [s|]; [|done]. by case_decide.
Qed.

Lemma number_or_truthy (n : Configuration.JsNumber) (d : Z) :
  d ≠ 0 → Configuration.truthy (Configuration.number_or n d) = true.
Proof.
  intros Hd. unfold Configuration.number_or.
  destruct (Configuration.truthy n) eqn:Hn; [done|]. simpl.
  apply negb_true_iff, Z.eqb_neq, Hd.
Qed.

(** X23. No setting that has a default is ever blank: for every
    environment and whatever [parseInt] returns, the seven text settings
    are non-empty, and the port and the two throttle settings are neither
    [NaN] nor zero; a variable that is unset or empty, or a number that
    parses to [NaN] or to zero, gives the default. *)
Theorem configuration_never_blank
    (parseInt : option string → Z → Configuration.JsNumber)
    (env : gmap string string) :
  Forall (λ s, s ≠ "")
    [ Configuration.jwt_secret (Configuration.configuration parseInt env);
      Configuration.jwt_expiresIn (Configuration.configuration parseInt env);
      Configuration.cors_origin (Configuration.configuration parseInt env);
      Configuration.swagger_title (Configuration.configuration parseInt env);
      Configuration.swagger_description
        (Configuration.configuration parseInt env);
      Configuration.swagger_version (Configuration.configuration parseInt env);
      Configuration.swagger_path (Configuration.configuration parseInt env) ]
  ∧ Forall (λ n, n ≠ Configuration.NaN ∧ n ≠ Configuration.Num 0)
      [ Configuration.port (Configuration.configuration parseInt env);
        Configuration.throttle_ttl (Configuration.configuration parseInt env);
        Configuration.throttle_limit (Configuration.configuration parseInt env) ]
  ∧ ((env !! "JWT_SECRET" = None ∨ env !! "JWT_SECRET" = Some "") →
     Configuration.jwt_secret (Configuration.configuration parseInt env)
     = "super-secret-jwt-key")
  ∧ ((parseInt (env !! "PORT") 10 = Configuration.NaN
      ∨ parseInt (env !! "PORT") 10 = Configuration.Num 0) →
     Configuration.port (Configuration.configuration parseInt env)
     = Configuration.Num 3000).
Proof.
  assert (Htruthy : ∀ n, Configuration.truthy n = true →
            n ≠ Configuration.NaN ∧ n ≠ Configuration.Num 0).
  { intros n Hn. split; intros ->; discriminate Hn. }
  split; [|split; [|split]].
  - repeat constructor; by apply string_or_not_blank.
  - repeat constructor; apply Htruthy; by apply number_or_truthy.
  - simpl. by intros [-> | ->].
  - simpl. by intros [-> | ->].
Qed.

(** An environment that sets the port to zero and leaves the secret
    empty, with a [parseInt] reading ["0"] as zero. *)
Lemma configuration_never_blank_witness :
  Configuration.jwt_secret
    (Configuration.configuration
       (λ x _, match x with
               | Some "0" => Configuration.Num 0
               | _ => Configuration.NaN
               end)
       (<["PORT" := "0"]> (<["JWT_SECRET" := ""]> ∅)))
  = "super-secret-jwt-key"
  ∧ Configuration.port
      (Configuration.configuration
         (λ x _, match x with
                 | Some "0" => Configuration.Num 0
                 | _ => Configuration.NaN
                 end)
         (<["PORT" := "0"]> (<["JWT_SECRET" := ""]> ∅)))
    = Configuration.Num 3000.
Proof.
  destruct (configuration_never_blank
              (λ x _, match x with
                      | Some "0" => Configuration.Num 0
                      | _ => Configuration.NaN
                      end)
              (<["PORT" := "0"]> (<["JWT_SECRET" := ""]> ∅)))
    as (_ & _ & Hsecret & Hport).
  split; [apply Hsecret; right; reflexivity | apply Hport; right; reflexivity].
Defined.

(** ** The session-gated layouts *)

(** X24. The two layouts mirror each other.  While the session check is
    pending both show the spinner and neither redirects.  Once it is
    resolved exactly one of them shows its page: with a session the
    dashboard layout shows the page and the auth layout shows nothing and
    redirects to [/dashboard]; without one the auth layout shows the page
    and the dashboard layout shows nothing and redirects to [/login].  A
    layout redirects exactly when it renders nothing. *)
Theorem layouts_mirror (h : Frontend.SessionHook) :
  (Frontend.isPending h = true →
   Frontend.AuthLayout h = Frontend.Spinner
   ∧ Frontend.DashboardLayout h = Frontend.Spinner
   ∧ Frontend.AuthLayout_effect h = None
   ∧ Frontend.DashboardLayout_effect h = None)
  ∧ (Frontend.isPending h = false →
     (is_Some (Frontend.data h)
      ∧ Frontend.DashboardLayout h = Frontend.Children
      ∧ Frontend.DashboardLayout_effect h = None
      ∧ Frontend.AuthLayout h = Frontend.Nothing
      ∧ Frontend.AuthLayout_effect h = Some "/dashboard")
     ∨ (Frontend.data h = None
        ∧ Frontend.AuthLayout h = Frontend.Children
        ∧ Frontend.AuthLayout_effect h = None
        ∧ Frontend.DashboardLayout h = Frontend.Nothing
        ∧ Frontend.DashboardLayout_effect h = Some "/login"))
  ∧ (Frontend.AuthLayout h = Frontend.Nothing
     ↔ is_Some (Frontend.AuthLayout_effect h))
  ∧ (Frontend.DashboardLayout h = Frontend.Nothing
     ↔ is_Some (Frontend.DashboardLayout_effect h)).
Proof.
  unfold Frontend.AuthLayout, Frontend.DashboardLayout,
    Frontend.AuthLayout_effect, Frontend.DashboardLayout_effect.
  destruct h as [[s|] [|]]; simpl.
  all: repeat split; try done; try (intros [? ?]; done); eauto.
  all: try (intros _; left; repeat split; eauto; done).
  all: try (intros _; right; repeat split; eauto; done).
Qed.

Lemma layouts_mirror_witness :
  Frontend.AuthLayout (Frontend.mkSessionHook None true) = Frontend.Spinner
  ∧ Frontend.DashboardLayout (Frontend.mkSessionHook None true)
    = Frontend.Spinner
  ∧ Frontend.AuthLayout_effect (Frontend.mkSessionHook None true) = None
  ∧ Frontend.DashboardLayout_effect (Frontend.mkSessionHook None true) = None.
Proof.
  apply (layouts_mirror (Frontend.mkSessionHook None true)). reflexivity.
Defined.
